(** * redMaGiC calibration: the parameter fitter and the calibrator's
      initial-guess search

    A shallow embedding of [redmapper/redmagic/redmagic_calibrate.py].

    - numpy [float64] arrays are lists of primitive binary64 floats, and
      every arithmetic operation is the IEEE operation of [PrimFloat];
    - a Python exception is a value of [Py.exn], and code that may raise
      returns a [Py.result];
    - the fitter object ([self]) and numpy's global random generator are
      the two mutable things of the process: methods are written in the
      state-and-exception monad [M] over [World];
    - functions of other modules and libraries (the spline, the median
      fitter, esutil's histogram, scipy's minimizer, [np.log10],
      [np.sum], numpy's random generator) are the fields of the class
      [Externals]; the red-sequence model is an attribute of the
      fitter. *)

From Stdlib Require Import List ZArith Bool Lia String Permutation PeanoNat.
From Stdlib Require Import Sorted.
From Stdlib Require Import PrimFloat SpecFloat FloatOps FloatAxioms.
From Stdlib Require Uint63.
Import ListNotations.

#[local] Set Warnings "-inexact-float".
#[local] Open Scope float_scope.

(* ================================================================= *)
(** ** Python exceptions *)

Module Py.

Inductive exn : Type :=
| RuntimeError (msg : string)
| ValueError (msg : string)
| IndexError.

Inductive result (A : Type) : Type :=
| Ok (a : A)
| Raise (e : exn).

Arguments Ok {A} a.
Arguments Raise {A} e.

Definition bind {A B : Type} (r : result A) (k : A -> result B) : result B :=
  match r with
  | Ok a => k a
  | Raise e => Raise e
  end.

(** A [for] loop whose body may raise: the first exception ends it. *)
Fixpoint for_each {A B : Type} (body : A -> result B) (l : list A)
  : result (list B) :=
  match l with
  | [] => Ok []
  | x :: l' =>
      bind (body x) (fun y => bind (for_each body l') (fun ys => Ok (y :: ys)))
  end.

End Py.

Import Py.

Declare Scope py_scope.
Delimit Scope py_scope with py.
Notation "x <- c ;; k" := (Py.bind c (fun x => k))
  (at level 61, c at next level, right associativity) : py_scope.
Notation "' pat <- c ;; k" := (Py.bind c (fun x => match x with pat => k end))
  (at level 61, pat pattern, c at next level, right associativity) : py_scope.

(* ================================================================= *)
(** ** The numpy operations the module uses, on one-dimensional arrays *)

Module Np.

Definition size {A : Type} (a : list A) : nat := List.length a.

(** [a[i]] for a non-negative integer [i]. *)
Definition getitem {A : Type} (a : list A) (i : nat) : result A :=
  match nth_error a i with
  | Some x => Ok x
  | None => Raise IndexError
  end.

(** [a[idx]] for an integer index array [idx]. *)
Definition take {A : Type} (a : list A) (idx : list nat) : result (list A) :=
  for_each (getitem a) idx.

Definition map2 {A B C : Type} (f : A -> B -> C) (a : list A) (b : list B)
  : list C :=
  map (fun p => f (fst p) (snd p)) (combine a b).

(** A binary ufunc on two arrays, with numpy's broadcasting rule for one
    dimension: equal sizes pair up, a size-one operand is stretched, and
    anything else is a [ValueError]. *)
Definition broadcast2 {A B C : Type} (f : A -> B -> C) (a : list A) (b : list B)
  : result (list C) :=
  if Nat.eqb (size a) (size b) then Ok (map2 f a b)
  else match a, b with
       | [x], _ => Ok (map (f x) b)
       | _, [y] => Ok (map (fun x => f x y) a)
       | _, _ => Raise (ValueError "operands could not be broadcast together")
       end.

(** [dst[:] = src] and [dst &= src]: the right-hand side must broadcast
    to the shape of the destination, which keeps its size. *)
Definition inplace2 {A B : Type} (f : A -> B -> A) (dst : list A) (src : list B)
  : result (list A) :=
  if Nat.eqb (size dst) (size src) then Ok (map2 f dst src)
  else match src with
       | [y] => Ok (map (fun x => f x y) dst)
       | _ => Raise (ValueError "could not broadcast input array")
       end.

Definition assign_slice (dst src : list float) : result (list float) :=
  inplace2 (fun _ y => y) dst src.

(** [np.where(mask)] for a one-dimensional mask: the indices that hold
    [True], in increasing order. *)
Definition np_where (mask : list bool) : list nat :=
  filter (fun i => nth i mask false) (seq 0 (size mask)).

(** The [clip] ufunc on one float: [min(max(x, lo), hi)], where a NaN
    first argument is returned as it is. *)
Definition fmax (a b : float) : float :=
  if is_nan a then a else if b <? a then a else b.

Definition fmin (a b : float) : float :=
  if is_nan a then a else if a <? b then a else b.

Definition clip1 (x lo hi : float) : float := fmin (fmax x lo) hi.

Definition clip (a : list float) (lo hi : float) : list float :=
  map (fun x => clip1 x lo hi) a.

(** [h.astype(np.float64)] on an integer count, and [np.arange(n)] as
    floats. *)
Definition of_count (c : Z) : float := of_uint63 (Uint63.of_Z c).

Definition of_nat (n : nat) : float := of_count (Z.of_nat n).

(** [x ** 2.] is computed as the square. *)
Definition square (x : float) : float := x * x.

(** The order numpy sorts and searches floats by: [<], with NaN last. *)
Definition less (a b : float) : bool :=
  (a <? b) || (is_nan b && negb (is_nan a)).

(** [np.searchsorted(a, v)] (side left): the binary search numpy runs,
    whatever the order of [a]. *)
Fixpoint bisect_left (fuel : nat) (a : list float) (v : float) (lo hi : nat)
  : nat :=
  match fuel with
  | O => lo
  | S fuel' =>
      if Nat.ltb lo hi then
        let mid := (lo + Nat.div2 (hi - lo))%nat in
        if less (nth mid a nan) v
        then bisect_left fuel' a v (S mid) hi
        else bisect_left fuel' a v lo mid
      else lo
  end.

Definition searchsorted (a : list float) (v : float) : nat :=
  bisect_left (S (size a)) a v 0 (size a).

(** [np.argsort(a)]: the indices that sort [a].  numpy leaves the order
    of equal keys open; here equal keys keep their order. *)
Fixpoint insert_index (a : list float) (i : nat) (sorted : list nat)
  : list nat :=
  match sorted with
  | [] => [i]
  | j :: rest =>
      if less (nth i a nan) (nth j a nan) then i :: j :: rest
      else j :: insert_index a i rest
  end.

Definition argsort (a : list float) : list nat :=
  fold_left (fun sorted i => insert_index a i sorted) (seq 0 (size a)) [].

End Np.

(* ================================================================= *)
(** ** What the module imports *)

(** Scipy's downhill-simplex minimizer is deterministic and meets its
    objective only by calling it: a run of it is a tree that either stops
    with the best iterate or asks for the cost at a point and goes on
    from the answer. *)
Inductive Minimizer : Type :=
| Converged (xopt : list float)
| Evaluate (x : list float) (k : float -> Minimizer).

Class Externals : Type := {
  (** [np.log10] on a scalar. *)
  log10 : float -> float;
  (** [np.sum] of a float array (numpy fixes the order of the additions). *)
  np_sum : list float -> float;
  (** Modelled from the spec: [utilities.CubicSpline(nodes, values)], the
      Spline Interpolator of section 4.1, is not among the sources.  It
      may reject its nodes and values; once built it is a function
      evaluable at an arbitrary redshift, applied to an array point by
      point. *)
  CubicSpline : list float -> list float -> result (float -> float);
  (** [esutil.stat.histogram(data, min=, max=, binsize=)]: the counts per
      bin. *)
  histogram : list float -> float -> float -> float -> result (list Z);
  (** [scipy.optimize.fmin(f, x0, disp=False, xtol=1e-8, ftol=1e-8)] as
      the strategy it follows from [x0]. *)
  fmin : list float -> Minimizer;
  (** Modelled from the spec: [fitters.MedZFitter(nodes, z, y).fit(p0,
      min_val=, max_val=)], the Robust Median Fitter of section 4.2, is
      not among the sources. *)
  MedZFitter_fit :
    list float -> list float -> list float -> list float -> float -> float ->
    result (list float);
  (** numpy's global random generator: its state, and
      [np.random.normal(size=n)]. *)
  RandomState : Type;
  random_normal : nat -> RandomState -> list float * RandomState
}.

(* ================================================================= *)
(** ** class RedmagicParameterFitter *)

Section RedmagicParameterFitter.

Context {ext : Externals}.

(** The attributes of a fitter.  Arrays passed through [np.atleast_1d]
    are lists; a scalar is a list of size one. *)
Record Fitter : Type := mkFitter {
  _nodes : list float;
  _corrnodes : list float;
  _n_nodes : nat;
  _n_corrnodes : nat;
  _z : list float;
  _z_err : list float;
  _zredmagic : list float;
  _zredmagic_e : list float;
  _chisq : list float;
  _mstar : list float;
  _zcal : list float;
  _zcal_err : list float;
  _refmag : list float;
  _randomn : list float;
  _zmax : list float;
  _etamin : float;
  _n0 : float;
  _volume : list float;
  _zrange : list float;
  _zbinsize : float;
  (** Modelled from the spec: the red-sequence structure
      ([redsequence.RedSequenceColorPar]) is not among the sources; of it
      the fitter uses [mstar(z)], the magnitude of each galaxy from its
      redshift (section 6). *)
  _zredstr : float -> float;
  _ab_use : option (list nat);
  _maxchi : float;
  _afterburner : bool
}.

Definition set_zredmagic (v : list float) (s : Fitter) : Fitter :=
  mkFitter (_nodes s) (_corrnodes s) (_n_nodes s) (_n_corrnodes s) (_z s)
    (_z_err s) v (_zredmagic_e s) (_chisq s) (_mstar s) (_zcal s)
    (_zcal_err s) (_refmag s) (_randomn s) (_zmax s) (_etamin s) (_n0 s)
    (_volume s) (_zrange s) (_zbinsize s) (_zredstr s) (_ab_use s)
    (_maxchi s) (_afterburner s).

Definition set_zredmagic_e (v : list float) (s : Fitter) : Fitter :=
  mkFitter (_nodes s) (_corrnodes s) (_n_nodes s) (_n_corrnodes s) (_z s)
    (_z_err s) (_zredmagic s) v (_chisq s) (_mstar s) (_zcal s)
    (_zcal_err s) (_refmag s) (_randomn s) (_zmax s) (_etamin s) (_n0 s)
    (_volume s) (_zrange s) (_zbinsize s) (_zredstr s) (_ab_use s)
    (_maxchi s) (_afterburner s).

Definition set_mstar (v : list float) (s : Fitter) : Fitter :=
  mkFitter (_nodes s) (_corrnodes s) (_n_nodes s) (_n_corrnodes s) (_z s)
    (_z_err s) (_zredmagic s) (_zredmagic_e s) (_chisq s) v (_zcal s)
    (_zcal_err s) (_refmag s) (_randomn s) (_zmax s) (_etamin s) (_n0 s)
    (_volume s) (_zrange s) (_zbinsize s) (_zredstr s) (_ab_use s)
    (_maxchi s) (_afterburner s).

Definition set_afterburner (v : bool) (s : Fitter) : Fitter :=
  mkFitter (_nodes s) (_corrnodes s) (_n_nodes s) (_n_corrnodes s) (_z s)
    (_z_err s) (_zredmagic s) (_zredmagic_e s) (_chisq s) (_mstar s) (_zcal s)
    (_zcal_err s) (_refmag s) (_randomn s) (_zmax s) (_etamin s) (_n0 s)
    (_volume s) (_zrange s) (_zbinsize s) (_zredstr s) (_ab_use s)
    (_maxchi s) v.

(** *** __init__ *)

Definition init
  (nodes corrnodes z z_err chisq mstar zcal zcal_err refmag randomn zmax
     : list float)
  (etamin n0 : float) (volume zrange : list float) (zbinsize : float)
  (zredstr : float -> float) (maxchi : float) (ab_use : option (list nat))
  : result Fitter :=
  let self :=
    mkFitter nodes corrnodes (Np.size nodes) (Np.size corrnodes) z z_err
      z z_err chisq mstar zcal zcal_err refmag randomn zmax etamin n0
      volume zrange zbinsize zredstr ab_use maxchi false in
  if negb (Np.size (_z self) =? Np.size (_z_err self))%nat then
    Raise (ValueError "Number of z must be equal to z_err")
  else if negb (Np.size (_z self) =? Np.size (_chisq self))%nat then
    Raise (ValueError "Number of z must be equal to chisq")
  else if negb (Np.size (_z self) =? Np.size (_mstar self))%nat then
    Raise (ValueError "Number of z must be equal to mstar")
  else if negb (Np.size (_z self) =? Np.size (_zcal self))%nat then
    Raise (ValueError "Number of z must be equal to zcal")
  else if negb (Np.size (_z self) =? Np.size (_zcal_err self))%nat then
    Raise (ValueError "Number of z must be equal to zcal_err")
  else if negb (Np.size (_z self) =? Np.size (_refmag self))%nat then
    Raise (ValueError "Number of z must be equal to refmag")
  else if negb (Np.size (_z self) =? Np.size (_randomn self))%nat then
    Raise (ValueError "Number of z must be equal to randomn")
  else if negb (List.length (_zrange self) =? 2)%nat then
    Raise (ValueError "zrange must have 2 elements")
  else Ok self.

(** *** __call__ *)

(** What [__call__] returns, as a function of the attributes of
    [self]. *)
Definition cost (self : Fitter) (pars : list float) : result float :=
  (spl <- CubicSpline (_nodes self) pars ;;
   let chi2max := Np.clip (map spl (_z self)) 0.1 (_maxchi self) in
   t <- Np.broadcast2 mul (_randomn self) (_zredmagic_e self) ;;
   zsamp <- Np.broadcast2 add t (_zredmagic self) ;;
   m1 <- Np.broadcast2 ltb (_chisq self) chi2max ;;
   m2 <- Np.broadcast2 ltb (_refmag self)
           (map (fun m => m - 2.5 * log10 (_etamin self)) (_mstar self)) ;;
   m12 <- Np.broadcast2 andb m1 m2 ;;
   m3 <- Np.broadcast2 ltb (_zredmagic self) (_zmax self) ;;
   mask <- Np.broadcast2 andb m12 m3 ;;
   let gd := Np.np_where mask in
   if (Np.size gd =? 0)%nat then Ok 1e11
   else
     zs <- Np.take zsamp gd ;;
     zr0 <- Np.getitem (_zrange self) 0 ;;
     zr1 <- Np.getitem (_zrange self) 1 ;;
     h <- histogram zs zr0 (zr1 - 0.0001) (_zbinsize self) ;;
     den <- Np.broadcast2 div (map Np.of_count h) (_volume self) ;;
     let den_err :=
       map (fun v => sqrt (_n0 self * 1e-4 * v) / v) (_volume self) in
     r <- Np.broadcast2 div (map (fun d => d - _n0 self * 1e-4) den) den_err ;;
     Ok (np_sum (map Np.square r)))%py.

(** *** The process state and the monad of the methods *)

Record World : Type := mkWorld {
  self_ : Fitter;
  np_random : RandomState
}.

Definition M (A : Type) : Type := World -> result A * World.

Definition ret {A : Type} (a : A) : M A := fun w => (Ok a, w).

Definition raise {A : Type} (e : exn) : M A := fun w => (Raise e, w).

Definition bindM {A B : Type} (c : M A) (k : A -> M B) : M B :=
  fun w =>
    match c w with
    | (Ok a, w') => k a w'
    | (Raise e, w') => (Raise e, w')
    end.

Definition lift {A : Type} (r : result A) : M A := fun w => (r, w).

Definition get_self : M Fitter := fun w => (Ok (self_ w), w).

Definition modify_self (f : Fitter -> Fitter) : M unit :=
  fun w => (Ok tt, mkWorld (f (self_ w)) (np_random w)).

(** [np.random.normal(size=n)] advances the global generator. *)
Definition np_random_normal (n : nat) : M (list float) :=
  fun w =>
    let '(draws, g) := random_normal n (np_random w) in
    (Ok draws, mkWorld (self_ w) g).

Declare Scope M_scope.
Delimit Scope M_scope with M.
Notation "x <- c ;; k" := (bindM c (fun x => k))
  (at level 61, c at next level, right associativity) : M_scope.

(** [__call__] as the method the minimizer evaluates: statement by
    statement, each reading from the process state the attributes it
    names.  The monad gives every statement access to the fitter and to
    the generator of [np.random]. *)
Definition call (pars : list float) : M float :=
  (self <- get_self ;;
   spl <- lift (CubicSpline (_nodes self) pars) ;;
   self <- get_self ;;
   let chi2max := Np.clip (map spl (_z self)) 0.1 (_maxchi self) in
   self <- get_self ;;
   t <- lift (Np.broadcast2 mul (_randomn self) (_zredmagic_e self)) ;;
   zsamp <- lift (Np.broadcast2 add t (_zredmagic self)) ;;
   self <- get_self ;;
   m1 <- lift (Np.broadcast2 ltb (_chisq self) chi2max) ;;
   m2 <- lift (Np.broadcast2 ltb (_refmag self)
                 (map (fun m => m - 2.5 * log10 (_etamin self))
                    (_mstar self))) ;;
   m12 <- lift (Np.broadcast2 andb m1 m2) ;;
   m3 <- lift (Np.broadcast2 ltb (_zredmagic self) (_zmax self)) ;;
   mask <- lift (Np.broadcast2 andb m12 m3) ;;
   let gd := Np.np_where mask in
   if (Np.size gd =? 0)%nat then ret 1e11
   else
     self <- get_self ;;
     zs <- lift (Np.take zsamp gd) ;;
     zr0 <- lift (Np.getitem (_zrange self) 0) ;;
     zr1 <- lift (Np.getitem (_zrange self) 1) ;;
     h <- lift (histogram zs zr0 (zr1 - 0.0001) (_zbinsize self)) ;;
     self <- get_self ;;
     den <- lift (Np.broadcast2 div (map Np.of_count h) (_volume self)) ;;
     self <- get_self ;;
     let den_err :=
       map (fun v => sqrt (_n0 self * 1e-4 * v) / v) (_volume self) in
     self <- get_self ;;
     r <- lift (Np.broadcast2 div (map (fun d => d - _n0 self * 1e-4) den)
                  den_err) ;;
     ret (np_sum (map Np.square r)))%M.

(** The minimizer run against an objective. *)
Fixpoint run_minimizer (m : Minimizer) (f : list float -> M float)
  : M (list float) :=
  match m with
  | Converged xopt => ret xopt
  | Evaluate x k => bindM (f x) (fun v => run_minimizer (k v) f)
  end.

(** *** fit *)

Definition is_None {A : Type} (o : option A) : bool :=
  match o with None => true | Some _ => false end.

Definition fit (p0_cval : list float) (biaspars eratiopars : option (list float))
  (afterburner : bool) : M (list float) :=
  (self <- get_self ;;
   _ <- (if is_None (_ab_use self) && afterburner
         then raise (RuntimeError
                "Must set afterburner_use if using the afterburner")
         else ret tt) ;;
   _ <- modify_self (set_afterburner afterburner) ;;
   _ <- (if afterburner then
           match biaspars, eratiopars with
           | Some biaspars, Some eratiopars =>
               self <- get_self ;;
               spl <- lift (CubicSpline (_corrnodes self) biaspars) ;;
               zr <- lift (Np.broadcast2 sub (_z self) (map spl (_z self))) ;;
               _ <- modify_self (set_zredmagic zr) ;;
               self <- get_self ;;
               spl <- lift (CubicSpline (_corrnodes self) eratiopars) ;;
               ze <- lift (Np.broadcast2 mul (_z_err self)
                             (map spl (_z self))) ;;
               modify_self (set_zredmagic_e ze)
           | _, _ =>
               raise (RuntimeError
                 "Must set biaspars, eratiopars if using the afterburner")
           end
         else
           self <- get_self ;;
           zr <- lift (Np.assign_slice (_zredmagic self) (_z self)) ;;
           _ <- modify_self (set_zredmagic zr) ;;
           self <- get_self ;;
           ze <- lift (Np.assign_slice (_zredmagic_e self) (_z_err self)) ;;
           modify_self (set_zredmagic_e ze)) ;;
   self <- get_self ;;
   _ <- modify_self (set_mstar (map (_zredstr self) (_zredmagic self))) ;;
   run_minimizer (fmin p0_cval) call)%M.

(** *** fit_bias_eratio *)

(** [a[self._ab_use]]: an index array selects; [None] as an index is
    [np.newaxis], the same data under one more leading axis of length
    one. *)
Definition index_ab_use {A : Type} (ab_use : option (list nat)) (a : list A)
  : result (list A) :=
  match ab_use with
  | Some idx => Np.take a idx
  | None => Ok a
  end.

(** The body of [fit_bias_eratio]: it reads attributes of [self] and
    assigns none. *)
Definition fit_bias_eratio_body (self : Fitter) (cval p0_bias p0_eratio : list float)
  : result (list float * list float) :=
  (spl <- CubicSpline (_nodes self) cval ;;
   let chi2max := Np.clip (map spl (_z self)) 0.1 (_maxchi self) in
   c_u <- index_ab_use (_ab_use self) (_chisq self) ;;
   x_u <- index_ab_use (_ab_use self) chi2max ;;
   m1 <- Np.broadcast2 ltb c_u x_u ;;
   r_u <- index_ab_use (_ab_use self) (_refmag self) ;;
   ms_u <- index_ab_use (_ab_use self) (_mstar self) ;;
   m2 <- Np.broadcast2 ltb r_u
           (map (fun m => m - 2.5 * log10 (_etamin self)) ms_u) ;;
   ab_mask <- Np.broadcast2 andb m1 m2 ;;
   ab_mask <-
     (if (1 <? Np.size (_zmax self))%nat then
        zr_u <- index_ab_use (_ab_use self) (_zredmagic self) ;;
        zm_u <- index_ab_use (_ab_use self) (_zmax self) ;;
        m3 <- Np.broadcast2 ltb zr_u zm_u ;;
        Np.inplace2 andb ab_mask m3
      else
        zr_u <- index_ab_use (_ab_use self) (_zredmagic self) ;;
        m3 <- Np.broadcast2 ltb zr_u (_zmax self) ;;
        Np.inplace2 andb ab_mask m3) ;;
   match _ab_use self with
   | None =>
       (* the mask has two axes, [np.where] returns two index arrays, and
          [ab_gd, = ...] has one target *)
       Raise (ValueError "too many values to unpack (expected 1)")
   | Some ab_use =>
       let ab_gd := Np.np_where ab_mask in
       ab_gd <- Np.take ab_use ab_gd ;;
       zg <- Np.take (_z self) ab_gd ;;
       zg' <- Np.take (_z self) ab_gd ;;
       zc <- Np.take (_zcal self) ab_gd ;;
       dz <- Np.broadcast2 sub zg' zc ;;
       pars_bias <- MedZFitter_fit (_corrnodes self) zg dz p0_bias (-0.1) 0.1 ;;
       zg <- Np.take (_z self) ab_gd ;;
       zc <- Np.take (_zcal self) ab_gd ;;
       dz <- Np.broadcast2 sub zg zc ;;
       ze <- Np.take (_z_err self) ab_gd ;;
       y <- Np.broadcast2 div (map (fun d => 1.4826 * abs d) dz) ze ;;
       zg <- Np.take (_z self) ab_gd ;;
       pars_eratio <- MedZFitter_fit (_corrnodes self) zg y p0_eratio 0.5 1.5 ;;
       Ok (pars_bias, pars_eratio)
   end)%py.

Definition fit_bias_eratio (cval p0_bias p0_eratio : list float)
  : M (list float * list float) :=
  (self <- get_self ;; lift (fit_bias_eratio_body self cval p0_bias p0_eratio))%M.

End RedmagicParameterFitter.

Arguments call {ext} pars w : simpl never.

(* ================================================================= *)
(** ** class RedmagicCalibrator: the parts of [run] that cut the input
       galaxies and that compute the starting values *)

Section RedmagicCalibrator.

Context {ext : Externals}.

(** The columns of the galaxy catalog that [run] reads here. *)
Record Galaxy : Type := mkGalaxy {
  zuse : float;
  zuse_e : float;
  chisq : float;
  refmag : float
}.

Definition lstar_cushion : float := 0.05.
Definition z_cushion : float := 0.05.

(** "Cut input galaxies": the indices [use] of all possible redmagic
    galaxies.  [min_etas] is [np.min(config.redmagic_etas)] and
    [chisqcut] is [config.redmagic_calib_chisqcut]. *)
Definition cut_input_galaxies (zredstr : float -> float) (gals : list Galaxy)
  (corr_zrange : float * float) (min_etas chisqcut : float)
  : result (list nat) :=
  (let mstar_init := map zredstr (map zuse gals) in
   let cut_zrange :=
     (fst corr_zrange - z_cushion, snd corr_zrange + z_cushion) in
   let minlstar := Np.fmax (min_etas - lstar_cushion) 0.1 in
   let m1 := map (fun x => fst cut_zrange <? x) (map zuse gals) in
   let m2 := map (fun x => x <? snd cut_zrange) (map zuse gals) in
   m12 <- Np.broadcast2 andb m1 m2 ;;
   let m3 := map (fun x => x <? chisqcut) (map chisq gals) in
   m123 <- Np.broadcast2 andb m12 m3 ;;
   m4 <- Np.broadcast2 ltb (map refmag gals)
           (map (fun m => m - 2.5 * log10 minlstar) mstar_init) ;;
   mask <- Np.broadcast2 andb m123 m4 ;;
   let use := Np.np_where mask in
   if (Np.size use =? 0)%nat then
     Raise (RuntimeError "No galaxies in redshift range/chisq range/eta range.")
   else Ok use)%py.

(** The local redshift window of node [j] in the search for starting
    values. *)
Definition node_zrange (nodes : list float) (zbinsize : float) (j : nat)
  : result (float * float) :=
  (nj <- Np.getitem nodes j ;;
   let zrange := (nj - zbinsize / 2, nj + zbinsize / 2) in
   if (j =? 0)%nat then Ok (nj, nj + zbinsize)
   else if (j =? Np.size nodes - 1)%nat then Ok (nj - zbinsize, nj)
   else Ok zrange)%py.

(** The indices [u] of the possible galaxies inside a window. *)
Definition in_window (gals : list Galaxy) (red_poss : list nat)
  (zrange : float * float) : result (list nat) :=
  (zu <- Np.take (map zuse gals) red_poss ;;
   let lo := map (fun x => fst zrange <? x) zu in
   zu <- Np.take (map zuse gals) red_poss ;;
   let hi := map (fun x => x <? snd zrange) zu in
   mask <- Np.broadcast2 andb lo hi ;;
   Ok (Np.np_where mask))%py.

(** One round of the loop "get starting values": the value stored in
    [cmaxvals[j]].  [n0] is [config.redmagic_n0s[i]] and [test_vol] the
    comoving volumes at the nodes. *)
Definition starting_value (gals : list Galaxy) (red_poss : list nat)
  (nodes test_vol : list float) (zbinsize n0 : float) (j : nat)
  : result float :=
  (zrange <- node_zrange nodes zbinsize j ;;
   u <- in_window gals red_poss zrange ;;
   ru <- Np.take red_poss u ;;
   cu <- Np.take (map chisq gals) ru ;;
   let st := Np.argsort cu in
   tv <- Np.getitem test_vol j ;;
   let test_den := map (fun k => Np.of_nat k / tv) (seq 0 (Np.size u)) in
   let ind := Np.searchsorted test_den (n0 * 1e-4) in
   i1 <- Np.getitem st ind ;;
   i2 <- Np.getitem u i1 ;;
   i3 <- Np.getitem red_poss i2 ;;
   Np.getitem (map chisq gals) i3)%py.

(** The loop over the nodes: [cmaxvals]. *)
Definition starting_values (gals : list Galaxy) (red_poss : list nat)
  (nodes test_vol : list float) (zbinsize n0 : float) : result (list float) :=
  for_each (starting_value gals red_poss nodes test_vol zbinsize n0)
    (seq 0 (Np.size nodes)).

(** The draws for the Monte Carlo sampling of the redshifts, taken once
    before the fitter is built ([config.redmagic_calib_pz_integrate]). *)
Definition draw_randomn (pz_integrate : bool) (n : nat) : M (list float) :=
  if pz_integrate then np_random_normal n else ret (repeat 0 n).

End RedmagicCalibrator.

(* ================================================================= *)
(** ** More of [RedmagicCalibrator.run] *)

Section RedmagicCalibratorRun.

(** [a[0:stop]] for an integer [stop]; a negative [stop] counts from the
    end. *)
Definition slice_to {A : Type} (a : list A) (stop : Z) : list A :=
  if (0 <=? stop)%Z then firstn (Z.to_nat stop) a
  else firstn (Np.size a - Z.to_nat (- stop)) a.

(** "Determine which of the galaxies to use in the afterburner": the
    indices [afterburner_use] into the possible galaxies.  [gals_zcal] is
    the column [gals.zcal]; [ntrain] and [r] are the values of
    [int(config.redmagic_calib_fractrain * gd.size)] and
    [np.random.random(gd.size)]. *)
Definition afterburner_use (gals_zcal : list float) (red_poss : list nat)
  (ntrain : Z) (r : list float) : result (list nat) :=
  (zc <- Np.take gals_zcal red_poss ;;
   let gd := Np.np_where (map (fun x => 0 <? x) zc) in
   let st := Np.argsort r in
   Np.take gd (slice_to st ntrain))%py.

(** [astr.area[np.searchsorted(astr.z, zs)]]: the unmasked area at the
    bin centres and at the nodes. *)
Definition areas_at (astr_z astr_area zs : list float) : result (list float) :=
  let aind := map (Np.searchsorted astr_z) zs in
  Np.take astr_area aind.

(** [s.replace(old, new)] for a pattern [old] that is not empty: the
    occurrences are found from the left and do not overlap.  [skip]
    counts the characters of an occurrence still to pass over. *)
Fixpoint replace_from (old new : string) (skip : nat) (s : string) : string :=
  match s with
  | EmptyString => EmptyString
  | String c s' =>
      match skip with
      | S k => replace_from old new k s'
      | O =>
          if String.prefix old s
          then String.append new
                 (replace_from old new (String.length old - 1) s')
          else String c (replace_from old new 0 s')
      end
  end.

Definition str_replace (old new s : string) : string :=
  replace_from old new 0 s.

(** [s.split(sep)[0]]: the part of [s] before the first [sep], all of
    [s] when [sep] does not occur. *)
Fixpoint split_head (sep s : string) : string :=
  match s with
  | EmptyString => EmptyString
  | String c s' =>
      if String.prefix sep s then EmptyString
      else String c (split_head sep s')
  end.

(** "Output config file here": the name [runfile] made from
    [config.configfile]. *)
Definition runfile_name (configfile : string) : string :=
  let runfile := str_replace "cal" "run" configfile in
  if String.eqb runfile configfile then
    String.append (split_head ".y" configfile) "_run.yaml"
  else runfile.

End RedmagicCalibratorRun.

Section RedmagicCalibratorFit.

Context {ext : Externals}.

(** "rmfitter = RedmagicParameterFitter(...)": the fitter of a
    selection, constructed on the draws [randomn] and the held-out set
    [afterburner_use]. *)
Definition construct_fitter
  (nodes corrnodes z z_err chisq mstar zcal zcal_err refmag randomn zmax
     : list float)
  (etamin n0 : float) (volume zrange : list float) (zbinsize : float)
  (zredstr : float -> float) (maxchi : float) (afterburner_use : list nat)
  : M unit :=
  bindM (lift (init nodes corrnodes z z_err chisq mstar zcal zcal_err refmag
                 randomn zmax etamin n0 volume zrange zbinsize zredstr maxchi
                 (Some afterburner_use)))
    (fun rmfitter => modify_self (fun _ => rmfitter)).

(** The rounds of "run with afterburner": each fits the bias and the
    error ratio with the current thresholds, then the thresholds with the
    new bias and error ratio. *)
Fixpoint afterburner_rounds (k : nat) (cmaxvals biasvals eratiovals : list float)
  : M (list float * (list float * list float)) :=
  match k with
  | O => ret (cmaxvals, (biasvals, eratiovals))
  | S k' =>
      bindM (fit_bias_eratio cmaxvals biasvals eratiovals) (fun be =>
      bindM (fit cmaxvals (Some (fst be)) (Some (snd be)) true) (fun cmaxvals' =>
      afterburner_rounds k' cmaxvals' (fst be) (snd be)))
  end.

(** "Fitting first pass" to "And a last fit of bias/eratio": the
    thresholds, bias and error ratio that [run] records for one
    selection.  [n_corrnodes] is [corrnodes.size] and [run_afterburner]
    is [config.redmagic_run_afterburner]. *)
Definition fit_selection (cmaxvals : list float) (n_corrnodes : nat)
  (run_afterburner : bool)
  : M (list float * (list float * list float)) :=
  bindM (fit cmaxvals None None false) (fun cmaxvals =>
  let biasvals := repeat 0 n_corrnodes in
  let eratiovals := repeat 1 n_corrnodes in
  if run_afterburner then
    bindM (afterburner_rounds 5 cmaxvals biasvals eratiovals) (fun r =>
    bindM (fit_bias_eratio (fst r) (fst (snd r)) (snd (snd r))) (fun be =>
    ret (fst r, be)))
  else ret (cmaxvals, (biasvals, eratiovals))).

End RedmagicCalibratorFit.

(* ================================================================= *)
(** ** Executable stand-ins for the imports, for concrete runs *)

Module Demo.

(** [log10] at the two arguments the runs use. *)
Definition log10_at (x : float) : float :=
  if x =? 1 then 0 else if x =? 10 then 1 else nan.

Definition sum_left (a : list float) : float := fold_left add a 0.

(** The spline of a one-node grid is the constant function (section 4.1
    of the spec); other grids are not needed here. *)
Definition const_spline (nodes values : list float) : result (float -> float) :=
  match nodes, values with
  | [_], [v] => Ok (fun _ => v)
  | _, _ => Raise (ValueError "spline: one node and one value expected")
  end.

(** Counts per bin by comparison with the bin edges; data outside
    [[lo, hi]] are dropped and an empty selection is an error. *)
Fixpoint bin_counts (fuel : nat) (data : list float) (lo hi binsize : float)
  (i : nat) : list Z :=
  match fuel with
  | O => []
  | S fuel' =>
      let left := lo + Np.of_nat i * binsize in
      let right := lo + Np.of_nat (S i) * binsize in
      if left <=? hi then
        Z.of_nat (List.length
          (filter (fun x => (left <=? x) && (x <? right) && (x <=? hi)) data))
        :: bin_counts fuel' data lo hi binsize (S i)
      else []
  end.

Definition count_histogram (data : list float) (lo hi binsize : float)
  : result (list Z) :=
  match filter (fun x => (lo <=? x) && (x <=? hi)) data with
  | [] => Raise (ValueError "No data in specified min/max range")
  | _ :: _ => Ok (bin_counts 64 data lo hi binsize 0)
  end.

(** A strategy that asks for the cost at the start and stops there. *)
Definition one_shot (x0 : list float) : Minimizer :=
  Evaluate x0 (fun _ => Converged x0).

Definition clip_fit (nodes z y p0 : list float) (min_val max_val : float)
  : result (list float) :=
  Ok (map (fun v => Np.clip1 v min_val max_val) p0).

Definition counter_normal (n : nat) (g : nat) : list float * nat :=
  (map Np.of_nat (seq g n), (g + n)%nat).

#[export] Instance ext : Externals := {|
  log10 := log10_at;
  np_sum := sum_left;
  CubicSpline := const_spline;
  histogram := count_histogram;
  fmin := one_shot;
  MedZFitter_fit := clip_fit;
  RandomState := nat;
  random_normal := counter_normal
|}.

(** Three galaxies at redshifts 0.15, 0.25 and 0.35 for a one-node
    threshold on the range [0.1, 0.4] with bins of 0.1. *)
Definition fitter3 (ab_use : option (list nat)) : result Fitter :=
  init [0.25] [0.25]
    [0.15; 0.25; 0.35] [0.01; 0.01; 0.01]
    [1; 2; 30] [20; 20; 20]
    [0.15; -1; 0.36] [0.001; -1; 0.001]
    [18; 19; 19.5] [0; 0; 0] [0.5]
    1 1 [10000; 20000; 30000] [0.1; 0.4] 0.1 (fun _ => 20) 20 ab_use.

Definition self3 (ab_use : option (list nat)) : Fitter :=
  match fitter3 ab_use with
  | Ok s => s
  | Raise _ =>
      mkFitter [] [] 0 0 [] [] [] [] [] [] [] [] [] [] [] 0 0 [] [] 0
        (fun x => x) None 0 false
  end.

Definition generator0 : @RandomState ext := 0%nat.

Definition world3 (ab_use : option (list nat)) : World :=
  mkWorld (self3 ab_use) generator0.

(** Five galaxies for a grid of three nodes at 0.1, 0.2 and 0.3 with
    bins of 0.05: two in the window of the first node, one in the window
    of the second, two in the window of the third. *)
Definition gals5 : list Galaxy :=
  [mkGalaxy 0.12 0.01 3 18; mkGalaxy 0.13 0.01 1 18; mkGalaxy 0.21 0.01 4 18;
   mkGalaxy 0.28 0.01 2 18; mkGalaxy 0.29 0.01 5 18].

Definition nodes3 : list float := [0.1; 0.2; 0.3].

Definition test_vol3 : list float := [1000; 1000; 1000].

End Demo.

(** More data for concrete runs. *)
Module Demo2.

Import Demo.

(** The three galaxies of [Demo.fitter3] with [zmax] and [volume] left
    open. *)
Definition fitter3_with (zmax volume : list float) : result Fitter :=
  init [0.25] [0.25]
    [0.15; 0.25; 0.35] [0.01; 0.01; 0.01]
    [1; 2; 30] [20; 20; 20]
    [0.15; -1; 0.36] [0.001; -1; 0.001]
    [18; 19; 19.5] [0; 0; 0] zmax
    1 1 volume [0.1; 0.4] 0.1 (fun _ => 20) 20 None.

Definition self3_with (zmax volume : list float) : Fitter :=
  match fitter3_with zmax volume with
  | Ok s => s
  | Raise _ => self3 None
  end.



(** The column [zcal] of six galaxies, two of them without a calibration
    redshift, and five possible galaxies among them. *)
Definition zcal6 : list float := [0.2; -1; 0.3; 0.4; -1; 0.5].

Definition red_poss5 : list nat := [0; 1; 2; 3; 5]%nat.

End Demo2.

(** Data for runs with a threshold that varies with the redshift. *)
Module DemoLinear.

(** The natural cubic spline through two nodes is the straight line
    through them; through one node, the constant. *)
Definition linear_spline (nodes values : list float)
  : result (float -> float) :=
  match nodes, values with
  | [_], [v] => Ok (fun _ => v)
  | [x0; x1], [v0; v1] =>
      Ok (fun x => v0 + (v1 - v0) * ((x - x0) / (x1 - x0)))
  | _, _ => Raise (ValueError "spline: one or two nodes expected")
  end.

Definition ext : Externals := {|
  log10 := Demo.log10_at;
  np_sum := Demo.sum_left;
  CubicSpline := linear_spline;
  histogram := Demo.count_histogram;
  fmin := Demo.one_shot;
  MedZFitter_fit := Demo.clip_fit;
  RandomState := nat;
  random_normal := Demo.counter_normal
|}.

(** Four galaxies at raw redshifts 0.15 to 0.45 under threshold nodes at
    0.1 and 0.4, with one maximum redshift of 0.4 for all. *)
Definition fitter4 : result Fitter :=
  init [0.1; 0.4] [0.25]
    [0.15; 0.25; 0.35; 0.45] [0.01; 0.01; 0.01; 0.01]
    [5; 10; 19; 19] [20; 20; 20; 20]
    [0.15; -1; 0.36; -1] [0.001; -1; 0.001; -1]
    [18; 18; 18; 18] [0; 0; 0; 0] [0.4]
    1 1 [10000; 20000; 30000] [0.1; 0.4] 0.1 (fun _ => 20) 20
    (Some [0; 2]%nat).

Definition self4 : Fitter :=
  match fitter4 with
  | Ok s => s
  | Raise _ => Demo.self3 None
  end.

Definition world4 : World (ext := ext) := mkWorld (ext := ext) self4 0%nat.

(** The state a fit with the afterburner leaves: a bias of 0.1 at every
    redshift moves the corrected redshifts to 0.05 to 0.35. *)
Definition world4_corrected : World (ext := ext) :=
  snd (fit (ext := ext) [1; 40] (Some [0.1]) (Some [1]) true world4).

(** The threshold of the parameters [1; 40]: 1 at redshift 0.1 and 40 at
    redshift 0.4. *)
Definition line_1_40 (x : float) : float :=
  1 + (40 - 1) * ((x - 0.1) / (0.4 - 0.1)).

End DemoLinear.

(* ================================================================= *)
(** ** The vocabulary of the properties *)

(** [tab n g] is the array [g 0; ...; g (n - 1)]. *)
Definition tab {A : Type} (n : nat) (g : nat -> A) : list A :=
  map g (seq 0 n).

Section Vocabulary.

Context {ext : Externals}.

(** The invariant of the data model: the per-galaxy arrays have one size
    and [zmax] is one value per galaxy or one value for all; the redshift
    range has two bounds. *)
Definition aligned (s : Fitter) : bool :=
  let n := Np.size (_z s) in
  (Np.size (_z_err s) =? n)%nat && (Np.size (_zredmagic s) =? n)%nat &&
  (Np.size (_zredmagic_e s) =? n)%nat && (Np.size (_chisq s) =? n)%nat &&
  (Np.size (_mstar s) =? n)%nat && (Np.size (_zcal s) =? n)%nat &&
  (Np.size (_zcal_err s) =? n)%nat && (Np.size (_refmag s) =? n)%nat &&
  (Np.size (_randomn s) =? n)%nat && (Np.size (_zrange s) =? 2)%nat &&
  ((Np.size (_zmax s) =? n)%nat || (Np.size (_zmax s) =? 1)%nat).

(** The maximum redshift that applies to galaxy [i]. *)
Definition zmax_at (s : Fitter) (i : nat) : float :=
  if (Np.size (_zmax s) =? Np.size (_z s))%nat then nth i (_zmax s) nan
  else nth 0 (_zmax s) nan.

(** The chi-square threshold of galaxy [i] under the spline [spl]. *)
Definition chi2max_at (s : Fitter) (spl : float -> float) (i : nat) : float :=
  Np.clip1 (spl (nth i (_z s) nan)) 0.1 (_maxchi s).

(** Galaxy [i] passes the three cuts. *)
Definition passes (s : Fitter) (spl : float -> float) (i : nat) : bool :=
  (nth i (_chisq s) nan <? chi2max_at s spl i) &&
  (nth i (_refmag s) nan <? nth i (_mstar s) nan - 2.5 * log10 (_etamin s)) &&
  (nth i (_zredmagic s) nan <? zmax_at s i).

(** The sampled redshift of galaxy [i]. *)
Definition zsamp_at (s : Fitter) (i : nat) : float :=
  nth i (_randomn s) nan * nth i (_zredmagic_e s) nan + nth i (_zredmagic s) nan.

(** The galaxies that survive the selection, in catalog order. *)
Definition survivors (s : Fitter) (spl : float -> float) : list nat :=
  filter (passes s spl) (seq 0 (Np.size (_z s))).

(** What [__call__] computes from the sampled redshifts [zs] of the
    survivors. *)
Definition density_cost (s : Fitter) (zs : list float) : result float :=
  (zr0 <- Np.getitem (_zrange s) 0 ;;
   zr1 <- Np.getitem (_zrange s) 1 ;;
   h <- histogram zs zr0 (zr1 - 0.0001) (_zbinsize s) ;;
   den <- Np.broadcast2 div (map Np.of_count h) (_volume s) ;;
   let den_err := map (fun v => sqrt (_n0 s * 1e-4 * v) / v) (_volume s) in
   r <- Np.broadcast2 div (map (fun d => d - _n0 s * 1e-4) den) den_err ;;
   Ok (np_sum (map Np.square r)))%py.

(** The galaxies reordered: entry [k] of the new array is entry
    [sigma[k]] of the old one. *)
Definition permute (sigma : list nat) (a : list float) : list float :=
  map (fun i => nth i a nan) sigma.

Definition permute_fitter (sigma : list nat) (s : Fitter) : Fitter :=
  mkFitter (_nodes s) (_corrnodes s) (_n_nodes s) (_n_corrnodes s)
    (permute sigma (_z s)) (permute sigma (_z_err s))
    (permute sigma (_zredmagic s)) (permute sigma (_zredmagic_e s))
    (permute sigma (_chisq s)) (permute sigma (_mstar s))
    (permute sigma (_zcal s)) (permute sigma (_zcal_err s))
    (permute sigma (_refmag s)) (permute sigma (_randomn s))
    (if (Np.size (_zmax s) =? Np.size (_z s))%nat
     then permute sigma (_zmax s) else _zmax s)
    (_etamin s) (_n0 s) (_volume s) (_zrange s) (_zbinsize s) (_zredstr s)
    (_ab_use s) (_maxchi s) (_afterburner s).

(** The minimizer run against a function that has no effect. *)
Fixpoint minimize (m : Minimizer) (f : list float -> result float)
  : result (list float) :=
  match m with
  | Converged xopt => Ok xopt
  | Evaluate x k =>
      match f x with
      | Ok v => minimize (k v) f
      | Raise e => Raise e
      end
  end.

(** The fitter after the assignments of [fit] without afterburner. *)
Definition reset_to_raw (s : Fitter) : Fitter :=
  set_mstar (map (_zredstr s) (_z s))
    (set_zredmagic_e (_z_err s)
       (set_zredmagic (_z s) (set_afterburner false s))).

(** Galaxy [g] passes the cut on the input galaxies of [run]. *)
Definition possible (zredstr : float -> float) (corr_zrange : float * float)
  (min_etas chisqcut : float) (g : Galaxy) : bool :=
  (fst corr_zrange - z_cushion <? zuse g) &&
  (zuse g <? snd corr_zrange + z_cushion) &&
  (chisq g <? chisqcut) &&
  (refmag g
     <? zredstr (zuse g) - 2.5 * log10 (Np.fmax (min_etas - lstar_cushion) 0.1)).

(** No possible galaxy lies in the window of node [j]. *)
Definition window_empty (gals : list Galaxy) (red_poss : list nat)
  (nodes : list float) (zbinsize : float) (j : nat) : Prop :=
  exists zrange,
    node_zrange nodes zbinsize j = Ok zrange /\
    in_window gals red_poss zrange = Ok [].

(** A histogram counts: it does not see the order of its data. *)
Definition histogram_counts : Prop :=
  forall (d d' : list float) (lo hi binsize : float),
    Permutation d d' -> histogram d lo hi binsize = histogram d' lo hi binsize.

End Vocabulary.

(* ================================================================= *)
(** ** More vocabulary *)

Section MoreVocabulary.

Context {ext : Externals}.

(** What [__init__] compares: the sizes of the per-galaxy arguments with
    the size of [z], and the size of [zrange] with two. *)
Definition sizes_agree
  (z z_err chisq mstar zcal zcal_err refmag randomn zrange : list float)
  : bool :=
  (Np.size z =? Np.size z_err)%nat && (Np.size z =? Np.size chisq)%nat &&
  (Np.size z =? Np.size mstar)%nat && (Np.size z =? Np.size zcal)%nat &&
  (Np.size z =? Np.size zcal_err)%nat && (Np.size z =? Np.size refmag)%nat &&
  (Np.size z =? Np.size randomn)%nat && (Np.size zrange =? 2)%nat.

Definition set_zmax (v : list float) (s : Fitter) : Fitter :=
  mkFitter (_nodes s) (_corrnodes s) (_n_nodes s) (_n_corrnodes s) (_z s)
    (_z_err s) (_zredmagic s) (_zredmagic_e s) (_chisq s) (_mstar s) (_zcal s)
    (_zcal_err s) (_refmag s) (_randomn s) v (_etamin s) (_n0 s)
    (_volume s) (_zrange s) (_zbinsize s) (_zredstr s) (_ab_use s)
    (_maxchi s) (_afterburner s).

(** Two fitters that differ at most in the corrected arrays, in [mstar]
    and in the afterburner flag. *)
Definition same_inputs (s s' : Fitter) : Prop :=
  _nodes s' = _nodes s /\ _corrnodes s' = _corrnodes s /\
  _n_nodes s' = _n_nodes s /\ _n_corrnodes s' = _n_corrnodes s /\
  _z s' = _z s /\ _z_err s' = _z_err s /\ _chisq s' = _chisq s /\
  _zcal s' = _zcal s /\ _zcal_err s' = _zcal_err s /\
  _refmag s' = _refmag s /\ _randomn s' = _randomn s /\
  _zmax s' = _zmax s /\ _etamin s' = _etamin s /\ _n0 s' = _n0 s /\
  _volume s' = _volume s /\ _zrange s' = _zrange s /\
  _zbinsize s' = _zbinsize s /\ _zredstr s' = _zredstr s /\
  _ab_use s' = _ab_use s /\ _maxchi s' = _maxchi s.


End MoreVocabulary.

(** A float above zero: positive and finite, or plus infinity. *)
Definition above_zero (f : spec_float) : Prop :=
  match f with
  | S754_infinity false | S754_finite false _ _ => True
  | _ => False
  end.


(* ================================================================= *)
(** ** Arrays as tables of their entries *)

Module NpFacts.

Lemma tab_length {A : Type} (n : nat) (g : nat -> A) :
  List.length (tab n g) = n.
Proof. unfold tab. now rewrite length_map, length_seq. Qed.

Lemma tab_nth {A : Type} (n : nat) (g : nat -> A) (i : nat) (d : A) :
  (i < n)%nat -> nth i (tab n g) d = g i.
Proof.
  intro Hi. unfold tab.
  rewrite (nth_indep _ d (g 0%nat)) by now rewrite length_map, length_seq.
  rewrite map_nth. now rewrite seq_nth.
Qed.


Lemma as_tab {A : Type} (d : A) (a : list A) :
  a = tab (List.length a) (fun i => nth i a d).
Proof.
  apply (nth_ext _ _ d d).
  - now rewrite tab_length.
  - intros i Hi. now rewrite tab_nth.
Qed.

Lemma as_tab_n {A : Type} (d : A) (n : nat) (a : list A) :
  Np.size a = n -> a = tab n (fun i => nth i a d).
Proof. intros <-. apply as_tab. Qed.

Lemma map_tab {A B : Type} (f : A -> B) (n : nat) (g : nat -> A) :
  map f (tab n g) = tab n (fun i => f (g i)).
Proof. unfold tab. now rewrite map_map. Qed.

Lemma combine_map_same {A B C : Type} (g : C -> A) (h : C -> B) (l : list C) :
  combine (map g l) (map h l) = map (fun i => (g i, h i)) l.
Proof. induction l as [|x l IH]; simpl; [reflexivity | now rewrite IH]. Qed.

Lemma map2_tab {A B C : Type} (f : A -> B -> C) (n : nat)
  (g : nat -> A) (h : nat -> B) :
  Np.map2 f (tab n g) (tab n h) = tab n (fun i => f (g i) (h i)).
Proof.
  unfold Np.map2, tab. rewrite combine_map_same, map_map. reflexivity.
Qed.

Lemma broadcast2_tab {A B C : Type} (f : A -> B -> C) (n : nat)
  (g : nat -> A) (h : nat -> B) :
  Np.broadcast2 f (tab n g) (tab n h) = Ok (tab n (fun i => f (g i) (h i))).
Proof.
  unfold Np.broadcast2, Np.size. rewrite !tab_length, Nat.eqb_refl.
  now rewrite map2_tab.
Qed.

(** A right operand of size one is stretched. *)
Lemma broadcast2_scalar {A B C : Type} (f : A -> B -> C) (a : list A) (y : B) :
  Np.broadcast2 f a [y] = Ok (map (fun x => f x y) a).
Proof.
  unfold Np.broadcast2, Np.size. simpl.
  destruct a as [|x [|x' a']]; reflexivity.
Qed.

Lemma inplace2_same_size {A B : Type} (f : A -> B -> A) (n : nat)
  (g : nat -> A) (h : nat -> B) :
  Np.inplace2 f (tab n g) (tab n h) = Ok (tab n (fun i => f (g i) (h i))).
Proof.
  unfold Np.inplace2, Np.size. rewrite !tab_length, Nat.eqb_refl.
  now rewrite map2_tab.
Qed.

Lemma assign_slice_same_size (dst src : list float) :
  Np.size dst = Np.size src -> Np.assign_slice dst src = Ok src.
Proof.
  intro H. rewrite (as_tab_n nan (Np.size src) dst H).
  rewrite (as_tab nan src) at 2 3.
  unfold Np.assign_slice. now rewrite inplace2_same_size.
Qed.

Lemma np_where_tab (n : nat) (g : nat -> bool) :
  Np.np_where (tab n g) = filter g (seq 0 n).
Proof.
  unfold Np.np_where, Np.size. rewrite tab_length.
  apply filter_ext_in. intros i Hi. apply in_seq in Hi.
  apply tab_nth. lia.
Qed.

Lemma getitem_tab {A : Type} (n : nat) (g : nat -> A) (i : nat) :
  (i < n)%nat -> Np.getitem (tab n g) i = Ok (g i).
Proof.
  intro Hi. unfold Np.getitem.
  assert (Hn : nth_error (tab n g) i = Some (nth i (tab n g) (g 0%nat))).
  { apply nth_error_nth'. now rewrite tab_length. }
  rewrite Hn. now rewrite tab_nth.
Qed.

Lemma take_tab {A : Type} (n : nat) (g : nat -> A) (idx : list nat) :
  (forall i, In i idx -> (i < n)%nat) ->
  Np.take (tab n g) idx = Ok (map g idx).
Proof.
  unfold Np.take. induction idx as [|i idx IH]; intro H; simpl.
  - reflexivity.
  - rewrite getitem_tab by (apply H; now left). simpl.
    rewrite IH by (intros k Hk; apply H; now right). reflexivity.
Qed.

Lemma filter_seq_lt (g : nat -> bool) (n i : nat) :
  In i (filter g (seq 0 n)) -> (i < n)%nat.
Proof. intro H. apply filter_In in H. destruct H as [H _]. apply in_seq in H. lia. Qed.

Lemma Permutation_filter {A : Type} (p : A -> bool) (l l' : list A) :
  Permutation l l' -> Permutation (filter p l) (filter p l').
Proof.
  induction 1 as [| x l l' _ IH | x y l | l l' l'' _ IH1 _ IH2]; simpl.
  - constructor.
  - destruct (p x); [now constructor | assumption].
  - destruct (p x), (p y); try apply Permutation_refl. apply perm_swap.
  - now transitivity (filter p l').
Qed.

Lemma map_as_tab {A B : Type} (d : A) (f : A -> B) (n : nat) (a : list A) :
  Np.size a = n -> map f a = tab n (fun i => f (nth i a d)).
Proof.
  intro H. transitivity (map f (tab n (fun i => nth i a d))).
  - f_equal. now apply as_tab_n.
  - apply map_tab.
Qed.

Lemma broadcast2_nth {A B C : Type} (da : A) (db : B) (f : A -> B -> C)
  (n : nat) (a : list A) (b : list B) :
  Np.size a = n -> Np.size b = n ->
  Np.broadcast2 f a b = Ok (tab n (fun i => f (nth i a da) (nth i b db))).
Proof.
  intros Ha Hb.
  transitivity (Np.broadcast2 f (tab n (fun i => nth i a da))
                  (tab n (fun i => nth i b db))).
  - f_equal; now apply as_tab_n.
  - apply broadcast2_tab.
Qed.

Lemma broadcast2_nth_l {A B C : Type} (da : A) (f : A -> B -> C)
  (n : nat) (a : list A) (h : nat -> B) :
  Np.size a = n ->
  Np.broadcast2 f a (tab n h) = Ok (tab n (fun i => f (nth i a da) (h i))).
Proof.
  intros Ha.
  transitivity (Np.broadcast2 f (tab n (fun i => nth i a da)) (tab n h)).
  - f_equal. now apply as_tab_n.
  - apply broadcast2_tab.
Qed.

Lemma broadcast2_nth_r {A B C : Type} (db : B) (f : A -> B -> C)
  (n : nat) (g : nat -> A) (b : list B) :
  Np.size b = n ->
  Np.broadcast2 f (tab n g) b = Ok (tab n (fun i => f (g i) (nth i b db))).
Proof.
  intros Hb.
  transitivity (Np.broadcast2 f (tab n g) (tab n (fun i => nth i b db))).
  - f_equal. now apply as_tab_n.
  - apply broadcast2_tab.
Qed.

(** A right operand that has the size of the left one or size one. *)
Lemma broadcast2_per_item_or_scalar {A B C : Type} (da : A) (db : B)
  (f : A -> B -> C) (n : nat) (a : list A) (b : list B) :
  Np.size a = n -> (Np.size b =? n)%nat || (Np.size b =? 1)%nat = true ->
  Np.broadcast2 f a b =
  Ok (tab n (fun i =>
        f (nth i a da)
          (if (Np.size b =? n)%nat then nth i b db else nth 0 b db))).
Proof.
  intros Ha Hb. destruct (Np.size b =? n)%nat eqn:E.
  - apply Nat.eqb_eq in E. now apply broadcast2_nth.
  - simpl in Hb. apply Nat.eqb_eq in Hb.
    destruct b as [|y [|y' b']]; try discriminate.
    rewrite broadcast2_scalar. simpl. f_equal.
    now apply (map_as_tab da (fun x => f x y)).
Qed.

Lemma filter_seq_sorted (p : nat -> bool) (a n : nat) :
  StronglySorted lt (filter p (seq a n)).
Proof.
  revert a. induction n as [|n IH]; intro a; simpl.
  - constructor.
  - destruct (p a); [|apply IH].
    constructor; [apply IH|].
    apply Forall_forall. intros i Hi. apply filter_In in Hi.
    destruct Hi as [Hi _]. apply in_seq in Hi. lia.
Qed.

End NpFacts.

(* ================================================================= *)
(** ** The range of the clip *)

Module ClipFacts.

Lemma SFcompare_refl (f : spec_float) :
  f <> S754_nan -> SFcompare f f = Some Eq.
Proof.
  destruct f as [sg | sg | | sg m e]; simpl; intro H.
  - reflexivity.
  - now destruct sg.
  - congruence.
  - destruct sg; rewrite Z.compare_refl, Pos.compare_cont_refl; reflexivity.
Qed.

Lemma is_nan_spec (a : float) : is_nan a = true <-> Prim2SF a = S754_nan.
Proof.
  unfold is_nan. rewrite eqb_spec. unfold SFeqb. split.
  - intro H. destruct (Prim2SF a) eqn:E; try reflexivity;
      rewrite SFcompare_refl in H by discriminate; discriminate.
  - intros ->. reflexivity.
Qed.

Lemma SFcompare_antisym (a b : spec_float) (c : comparison) :
  SFcompare a b = Some c -> SFcompare b a = Some (CompOpp c).
Proof.
  destruct a as [[]|[]| |[] m1 e1], b as [[]|[]| |[] m2 e2]; simpl;
    intro H; inversion H; try reflexivity;
    rewrite (Z.compare_antisym e1 e2); destruct (e1 ?= e2)%Z; simpl;
    try reflexivity;
    rewrite (Pos.compare_cont_antisym m1 m2 Eq); simpl;
    now rewrite ?CompOpp_involutive.
Qed.

Lemma ltb_asym (a b : float) : (a <? b) = true -> (b <? a) = false.
Proof.
  rewrite !ltb_spec. unfold SFltb.
  destruct (SFcompare (Prim2SF a) (Prim2SF b)) as [c|] eqn:E; [|discriminate].
  rewrite (SFcompare_antisym _ _ _ E). now destruct c.
Qed.

Lemma ltb_nan (a b : float) :
  is_nan a = true -> (a <? b) = false /\ (b <? a) = false.
Proof.
  intro H. apply is_nan_spec in H. rewrite !ltb_spec. unfold SFltb.
  rewrite H. split; [reflexivity|]. now destruct (Prim2SF b).
Qed.

Lemma not_nan (a : float) : is_nan a = false -> Prim2SF a <> S754_nan.
Proof. intros H E. apply is_nan_spec in E. congruence. Qed.

Lemma ltb_neither (a b : float) :
  is_nan a = false -> is_nan b = false ->
  (a <? b) = false -> (b <? a) = false ->
  SFcompare (Prim2SF a) (Prim2SF b) = Some Eq.
Proof.
  intros Ha Hb. apply not_nan in Ha, Hb. rewrite !ltb_spec. unfold SFltb.
  destruct (SFcompare (Prim2SF a) (Prim2SF b)) as [c|] eqn:E.
  - rewrite (SFcompare_antisym _ _ _ E). now destruct c.
  - destruct (Prim2SF a), (Prim2SF b); simpl in E; congruence.
Qed.

Lemma SFcompare_Eq_above_zero (a b : spec_float) :
  above_zero a -> SFcompare a b = Some Eq -> b = a.
Proof.
  destruct a as [[]|[]| |[] m1 e1], b as [[]|[]| |[] m2 e2]; simpl;
    intros Ha H; try contradiction; try discriminate; try reflexivity.
  destruct (e1 ?= e2)%Z eqn:Ee; try discriminate.
  injection H as H. apply Z.compare_eq in Ee.
  apply (Pos.compare_eq m1 m2) in H. now subst.
Qed.

Lemma above_above_zero (a b : float) :
  above_zero (Prim2SF a) -> (a <? b) = true -> above_zero (Prim2SF b).
Proof.
  rewrite ltb_spec. unfold SFltb.
  destruct (Prim2SF a) as [[]|[]| |[] m1 e1], (Prim2SF b) as [[]|[]| |[] m2 e2];
    simpl; intros Ha H; try contradiction; try discriminate; exact I.
Qed.

Lemma leb_not_gt (a b : float) : (a <=? b) = true -> (b <? a) = false.
Proof.
  rewrite leb_spec, ltb_spec. unfold SFleb, SFltb.
  destruct (SFcompare (Prim2SF a) (Prim2SF b)) as [c|] eqn:E; [|discriminate].
  rewrite (SFcompare_antisym _ _ _ E). now destruct c.
Qed.

Lemma leb_is_nan (a b : float) :
  (a <=? b) = true -> is_nan a = false /\ is_nan b = false.
Proof.
  rewrite leb_spec. unfold SFleb. intro H.
  split; apply not_true_is_false; intro E; apply is_nan_spec in E;
    rewrite E in H; [discriminate|].
  destruct (Prim2SF a); discriminate.
Qed.

(** Clipping by cases on the primitive order: below the lower bound the
    lower bound, above the upper bound the upper bound, the value itself
    otherwise (a NaN too). *)
Lemma clip1_cases (x lo hi : float) :
  above_zero (Prim2SF lo) -> (lo <=? hi) = true ->
  Np.clip1 x lo hi = (if x <? lo then lo else if hi <? x then hi else x).
Proof.
  intros Hlo Hb. destruct (leb_is_nan _ _ Hb) as [Nlo Nhi].
  unfold Np.clip1, Np.fmax. destruct (is_nan x) eqn:Nx.
  - unfold Np.fmin. rewrite Nx.
    now rewrite (proj1 (ltb_nan x lo Nx)), (proj2 (ltb_nan x hi Nx)).
  - destruct (lo <? x) eqn:L1.
    + unfold Np.fmin. rewrite Nx, (ltb_asym _ _ L1).
      destruct (x <? hi) eqn:L2; [now rewrite (ltb_asym _ _ L2)|].
      destruct (hi <? x) eqn:L3; [reflexivity|].
      apply Prim2SF_inj.
      apply (SFcompare_Eq_above_zero (Prim2SF x) (Prim2SF hi)).
      * now apply (above_above_zero lo).
      * now apply ltb_neither.
    + unfold Np.fmin. rewrite Nlo.
      assert (Hhi : (if lo <? hi then lo else hi) = lo).
      { destruct (lo <? hi) eqn:L3; [reflexivity|].
        apply Prim2SF_inj. apply SFcompare_Eq_above_zero; [assumption|].
        apply ltb_neither; try assumption. now apply leb_not_gt. }
      rewrite Hhi. destruct (x <? lo) eqn:L2; [reflexivity|].
      assert (Hx : x = lo).
      { apply Prim2SF_inj. apply SFcompare_Eq_above_zero; [assumption|].
        now apply ltb_neither. }
      subst x. now rewrite (leb_not_gt _ _ Hb).
Qed.

End ClipFacts.

(* ================================================================= *)
(** ** The cost function, galaxy by galaxy *)

Section CostFacts.

Context {ext : Externals}.
Import NpFacts.

Lemma aligned_sizes (s : Fitter) :
  aligned s = true ->
  let n := Np.size (_z s) in
  Np.size (_z_err s) = n /\ Np.size (_zredmagic s) = n /\
  Np.size (_zredmagic_e s) = n /\ Np.size (_chisq s) = n /\
  Np.size (_mstar s) = n /\ Np.size (_zcal s) = n /\
  Np.size (_zcal_err s) = n /\ Np.size (_refmag s) = n /\
  Np.size (_randomn s) = n /\ Np.size (_zrange s) = 2%nat /\
  ((Np.size (_zmax s) =? n)%nat || (Np.size (_zmax s) =? 1)%nat = true).
Proof.
  unfold aligned. cbv zeta. rewrite !andb_true_iff, !Nat.eqb_eq. tauto.
Qed.

(** On aligned arrays no array operation of [__call__] raises, the mask
    is the table of [passes] and the sampled redshifts are the table of
    [zsamp_at]. *)
Lemma cost_aligned (s : Fitter) (pars : list float) (spl : float -> float) :
  aligned s = true ->
  CubicSpline (_nodes s) pars = Ok spl ->
  cost s pars =
  if (Np.size (survivors s spl) =? 0)%nat then Ok 1e11
  else density_cost s (map (zsamp_at s) (survivors s spl)).
Proof.
  intros Hal Hspl. apply aligned_sizes in Hal. cbv zeta in Hal.
  destruct Hal as (Hze & Hzr & Hzre & Hchi & Hms & _ & _ & Hrm & Hrn & _ & Hzm).
  unfold cost. rewrite Hspl. cbn [bind].
  set (n := Np.size (_z s)) in *.
  rewrite (broadcast2_nth nan nan mul n) by assumption. cbn [bind].
  rewrite (broadcast2_nth_r nan add n) by assumption. cbn [bind].
  unfold Np.clip. rewrite map_map.
  rewrite (map_as_tab nan (fun x => Np.clip1 (spl x) 0.1 (_maxchi s)) n (_z s))
    by reflexivity.
  rewrite (broadcast2_nth_l nan ltb n) by assumption. cbn [bind].
  rewrite (map_as_tab nan (fun m => m - 2.5 * log10 (_etamin s)) n (_mstar s))
    by assumption.
  rewrite (broadcast2_nth_l nan ltb n) by assumption. cbn [bind].
  rewrite broadcast2_tab. cbn [bind].
  rewrite (broadcast2_per_item_or_scalar nan nan ltb n) by assumption.
  cbn [bind]. rewrite broadcast2_tab. cbn [bind].
  rewrite np_where_tab.
  change (filter _ (seq 0 n)) with (survivors s spl).
  destruct (Np.size (survivors s spl) =? 0)%nat; [reflexivity|].
  rewrite take_tab by (intros i Hi; now apply filter_seq_lt in Hi).
  reflexivity.
Qed.

End CostFacts.

(* ================================================================= *)
(** ** The methods as state transformers *)

Section MethodFacts.

Context {ext : Externals}.
Import NpFacts.

(** Every statement of [__call__] leaves the process state as it found
    it, so the method returns [cost] of the fitter it was called on. *)
Lemma call_reads_only (pars : list float) (w : World) :
  call pars w = (cost (self_ w) pars, w).
Proof.
  unfold call, cost, bindM, get_self, lift, ret. cbn [Py.bind].
  destruct (CubicSpline (_nodes (self_ w)) pars) as [spl|]; [|reflexivity].
  cbn [Py.bind].
  destruct (Np.broadcast2 mul _ _) as [t|]; [|reflexivity]. cbn [Py.bind].
  destruct (Np.broadcast2 add _ _) as [zsamp|]; [|reflexivity]. cbn [Py.bind].
  destruct (Np.broadcast2 ltb _ _) as [m1|]; [|reflexivity]. cbn [Py.bind].
  destruct (Np.broadcast2 ltb _ _) as [m2|]; [|reflexivity]. cbn [Py.bind].
  destruct (Np.broadcast2 andb _ _) as [m12|]; [|reflexivity]. cbn [Py.bind].
  destruct (Np.broadcast2 ltb _ _) as [m3|]; [|reflexivity]. cbn [Py.bind].
  destruct (Np.broadcast2 andb _ _) as [mask|]; [|reflexivity]. cbn [Py.bind].
  destruct (Np.size (Np.np_where mask) =? 0)%nat; [reflexivity|].
  destruct (Np.take _ _) as [zs|]; [|reflexivity]. cbn [Py.bind].
  destruct (Np.getitem _ 0) as [zr0|]; [|reflexivity]. cbn [Py.bind].
  destruct (Np.getitem _ 1) as [zr1|]; [|reflexivity]. cbn [Py.bind].
  destruct (histogram _ _ _ _) as [h|]; [|reflexivity]. cbn [Py.bind].
  destruct (Np.broadcast2 div _ _) as [den|]; [|reflexivity]. cbn [Py.bind].
  destruct (Np.broadcast2 div _ _) as [r|]; reflexivity.
Qed.

Lemma run_minimizer_call (m : Minimizer) (w : World) :
  run_minimizer m call w = (minimize m (cost (self_ w)), w).
Proof.
  induction m as [xopt | x k IH]; simpl.
  - reflexivity.
  - unfold bindM. rewrite call_reads_only.
    destruct (cost (self_ w) x) as [v|e]; [apply IH | reflexivity].
Qed.

Ltac fit_steps :=
  unfold fit, bindM, get_self, raise, ret, modify_self, lift; cbn -[cost].

(** [fit] without afterburner on an aligned fitter. *)
Lemma fit_without_afterburner (p0_cval : list float)
  (biaspars eratiopars : option (list float)) (w : World) :
  aligned (self_ w) = true ->
  fit p0_cval biaspars eratiopars false w =
  (minimize (fmin p0_cval) (cost (reset_to_raw (self_ w))),
   mkWorld (reset_to_raw (self_ w)) (np_random w)).
Proof.
  intro Hal. apply aligned_sizes in Hal. cbv zeta in Hal.
  destruct Hal as (Hze & Hzr & Hzre & _).
  fit_steps. rewrite andb_false_r. cbn -[cost].
  rewrite !assign_slice_same_size by congruence. cbn -[cost].
  rewrite run_minimizer_call. reflexivity.
Qed.

(** Whatever its arguments, [fit] leaves the random generator and the
    stored draws alone. *)
Lemma fit_keeps_randomness (p0_cval : list float)
  (biaspars eratiopars : option (list float)) (afterburner : bool) (w : World) :
  np_random (snd (fit p0_cval biaspars eratiopars afterburner w)) = np_random w /\
  _randomn (self_ (snd (fit p0_cval biaspars eratiopars afterburner w))) =
  _randomn (self_ w).
Proof.
  fit_steps.
  destruct (is_None (_ab_use (self_ w)) && afterburner); cbn -[cost];
    [now split|].
  destruct afterburner; cbn -[cost].
  - destruct biaspars as [b|]; [destruct eratiopars as [e|]|];
      cbn -[cost]; try now split.
    destruct (CubicSpline (_corrnodes (self_ w)) b) as [spl|x];
      cbn -[cost]; [|now split].
    destruct (Np.broadcast2 sub _ _) as [zr|x]; cbn -[cost]; [|now split].
    destruct (CubicSpline (_corrnodes (self_ w)) e) as [spl'|x];
      cbn -[cost]; [|now split].
    destruct (Np.broadcast2 mul _ _) as [ze|x]; cbn -[cost]; [|now split].
    rewrite run_minimizer_call. now split.
  - destruct (Np.assign_slice _ _) as [zr|x]; cbn -[cost]; [|now split].
    destruct (Np.assign_slice _ _) as [ze|x]; cbn -[cost]; [|now split].
    rewrite run_minimizer_call. now split.
Qed.

Lemma aligned_intro (s : Fitter) (n : nat) :
  Np.size (_z s) = n -> Np.size (_z_err s) = n ->
  Np.size (_zredmagic s) = n -> Np.size (_zredmagic_e s) = n ->
  Np.size (_chisq s) = n -> Np.size (_mstar s) = n ->
  Np.size (_zcal s) = n -> Np.size (_zcal_err s) = n ->
  Np.size (_refmag s) = n -> Np.size (_randomn s) = n ->
  Np.size (_zrange s) = 2%nat ->
  (Np.size (_zmax s) =? n)%nat || (Np.size (_zmax s) =? 1)%nat = true ->
  aligned s = true.
Proof.
  intros Hz H1 H2 H3 H4 H5 H6 H7 H8 H9 H10 H11. unfold aligned. cbv zeta.
  rewrite Hz, H1, H2, H3, H4, H5, H6, H7, H8, H9, H10, H11.
  now rewrite !Nat.eqb_refl.
Qed.

(** The constructor establishes the invariant, but for [zmax], which it
    does not look at. *)
Lemma init_aligned
  (nodes corrnodes z z_err chisq mstar zcal zcal_err refmag randomn zmax
     : list float)
  (etamin n0 : float) (volume zrange : list float) (zbinsize : float)
  (zredstr : float -> float) (maxchi : float) (ab_use : option (list nat))
  (s : Fitter) :
  init nodes corrnodes z z_err chisq mstar zcal zcal_err refmag randomn zmax
    etamin n0 volume zrange zbinsize zredstr maxchi ab_use = Ok s ->
  (Np.size zmax =? Np.size z)%nat || (Np.size zmax =? 1)%nat = true ->
  aligned s = true.
Proof.
  unfold init. cbn [_z _z_err _chisq _mstar _zcal _zcal_err _refmag _randomn
                    _zrange].
  intros H Hzm.
  repeat match type of H with
  | (if negb ?c then _ else _) = _ =>
      let E := fresh "E" in
      destruct c eqn:E; cbn [negb] in H; [apply Nat.eqb_eq in E | discriminate]
  end.
  inversion H; subst s; clear H.
  apply (aligned_intro _ (Np.size z)); cbn; unfold Np.size in *;
    congruence.
Qed.

(** [fit] keeps the invariant and the raw arrays, however it ends. *)
Lemma fit_invariant (p0_cval : list float)
  (biaspars eratiopars : option (list float)) (afterburner : bool) (w : World) :
  aligned (self_ w) = true ->
  let s' := self_ (snd (fit p0_cval biaspars eratiopars afterburner w)) in
  aligned s' = true /\ _z s' = _z (self_ w) /\ _z_err s' = _z_err (self_ w) /\
  _zredstr s' = _zredstr (self_ w).
Proof.
  intro Hal. pose proof (aligned_sizes _ Hal) as Hs. cbv zeta in Hs.
  destruct Hs as (Hze & Hzr & Hzre & Hchi & Hms & Hzc & Hzce & Hrm & Hrn & Hrg & Hzm).
  set (n := Np.size (_z (self_ w))) in *.
  assert (Hfin : forall zr ze ab,
            Np.size zr = n -> Np.size ze = n ->
            aligned (set_mstar (map (_zredstr (self_ w)) zr)
                       (set_zredmagic_e ze
                          (set_zredmagic zr (set_afterburner ab (self_ w)))))
            = true).
  { intros zr ze ab H1 H2. apply (aligned_intro _ n); cbn; try assumption;
      try reflexivity. unfold Np.size in *. now rewrite length_map. }
  assert (Hmid : forall zr ab,
            Np.size zr = n ->
            aligned (set_zredmagic zr (set_afterburner ab (self_ w))) = true).
  { intros zr ab H1. apply (aligned_intro _ n); cbn; try assumption;
      reflexivity. }
  fit_steps.
  destruct (is_None (_ab_use (self_ w)) && afterburner); cbn -[cost];
    [now repeat split|].
  destruct afterburner; cbn -[cost].
  - destruct biaspars as [b|]; [destruct eratiopars as [e|]|];
      cbn -[cost]; try (now repeat split).
    destruct (CubicSpline (_corrnodes (self_ w)) b) as [spl|x];
      cbn -[cost]; [|now repeat split].
    rewrite (broadcast2_nth nan nan sub n)
      by (reflexivity || (unfold Np.size; now rewrite length_map)).
    cbn -[cost].
    destruct (CubicSpline (_corrnodes (self_ w)) e) as [spl'|x];
      cbn -[cost].
    + rewrite (broadcast2_nth nan nan mul n)
        by (assumption || (unfold Np.size; now rewrite length_map)).
      cbn -[cost]. rewrite run_minimizer_call. cbn -[cost].
      repeat split. apply Hfin; apply tab_length.
    + repeat split. apply Hmid. apply tab_length.
  - rewrite !assign_slice_same_size by (unfold n in *; congruence).
    cbn -[cost]. rewrite run_minimizer_call. cbn -[cost].
    repeat split. apply Hfin; [reflexivity | assumption].
Qed.

End MethodFacts.

(* ================================================================= *)
(** ** Properties of the fitter *)

Section FitterProperties.

Context {ext : Externals}.
Import NpFacts.

Lemma getitem_nth {A : Type} (d : A) (a : list A) (i : nat) :
  (i < Np.size a)%nat -> Np.getitem a i = Ok (nth i a d).
Proof.
  intro Hi. unfold Np.getitem. now rewrite (nth_error_nth' a d Hi).
Qed.


Lemma survivors_spec (s : Fitter) (spl : float -> float) (i : nat) :
  In i (survivors s spl) <->
  (i < Np.size (_z s))%nat /\ passes s spl i = true.
Proof.
  unfold survivors. rewrite filter_In, in_seq. intuition lia.
Qed.

Lemma no_survivors (s : Fitter) (spl : float -> float) :
  (forall i, (i < Np.size (_z s))%nat -> passes s spl i = false) ->
  survivors s spl = [].
Proof.
  intro H. destruct (survivors s spl) as [|i l] eqn:E; [reflexivity|].
  assert (Hi : In i (survivors s spl)) by (rewrite E; now left).
  apply survivors_spec in Hi. destruct Hi as [Hlt Hp].
  rewrite (H i Hlt) in Hp. discriminate.
Qed.

(** C1: for every parameter vector, when no galaxy passes the three cuts
    together (chi-square below its interpolated threshold, refmag below
    the luminosity cut, corrected redshift below zmax), [__call__]
    returns the fixed penalty 1e11 and does not raise. *)
Theorem call_empty_selection_penalty
  (w : World) (pars : list float) (spl : float -> float) :
  aligned (self_ w) = true ->
  CubicSpline (_nodes (self_ w)) pars = Ok spl ->
  (forall i, (i < Np.size (_z (self_ w)))%nat ->
             passes (self_ w) spl i = false) ->
  call pars w = (Ok 1e11, w).
Proof.
  intros Hal Hspl Hnone. rewrite call_reads_only.
  rewrite (cost_aligned _ _ _ Hal Hspl).
  now rewrite (no_survivors _ _ Hnone).
Qed.

(** C2: in every evaluation of the cost, whatever the corrected arrays
    hold and whatever the afterburner flag says, the galaxies selected
    are those, in catalog order, whose chi-square is below the spline at
    their raw redshift [z] brought into [0.1, maxchi] (0.1 when the
    spline is below 0.1, [maxchi] when it is above [maxchi], the spline
    itself between them), whose magnitude is below the luminosity cut
    and whose corrected redshift [zredmagic] is below the maximum
    redshift that applies to them; the cost is the penalty when none is
    selected and the density cost of their sampled redshifts
    otherwise. *)
Theorem threshold_at_raw_z_cut_at_corrected_z
  (w : World) (pars : list float) (spl : float -> float) :
  let s := self_ w in
  let n := Np.size (_z s) in
  aligned s = true ->
  CubicSpline (_nodes s) pars = Ok spl ->
  (0.1 <=? _maxchi s) = true ->
  exists gd : list nat,
    StronglySorted lt gd /\
    (forall i,
       In i gd <->
       (i < n)%nat /\
       (nth i (_chisq s) nan
          <? (let t := spl (nth i (_z s) nan) in
              if t <? 0.1 then 0.1
              else if _maxchi s <? t then _maxchi s else t)) = true /\
       (nth i (_refmag s) nan
          <? nth i (_mstar s) nan - 2.5 * log10 (_etamin s)) = true /\
       (nth i (_zredmagic s) nan
          <? (if (Np.size (_zmax s) =? n)%nat then nth i (_zmax s) nan
              else nth 0 (_zmax s) nan)) = true) /\
    call pars w =
      (if (Np.size gd =? 0)%nat then Ok 1e11
       else density_cost s
              (map (fun i => nth i (_randomn s) nan * nth i (_zredmagic_e s) nan
                             + nth i (_zredmagic s) nan) gd),
       w).
Proof.
  intros s n Hal Hspl Hmax. exists (survivors s spl).
  split; [apply filter_seq_sorted|]. split.
  - intro i. rewrite survivors_spec. unfold passes, chi2max_at, zmax_at.
    rewrite (ClipFacts.clip1_cases _ 0.1 (_maxchi s) I Hmax).
    rewrite !andb_true_iff. fold n. cbv zeta. tauto.
  - rewrite call_reads_only. fold s. f_equal. now apply cost_aligned.
Qed.


(** C5: [fit] with [afterburner=False] ignores [biaspars] and
    [eratiopars], sets [zredmagic] to the raw [z] and [zredmagic_e] to the
    raw [z_err], and recomputes [mstar] at the raw redshifts; so it does
    too after an earlier [fit] with [afterburner=True]. *)
Theorem fit_without_afterburner_resets
  (p0_cval : list float) (biaspars eratiopars : option (list float))
  (w : World) :
  aligned (self_ w) = true ->
  let after w0 := self_ (snd (fit p0_cval biaspars eratiopars false w0)) in
  fit p0_cval biaspars eratiopars false w = fit p0_cval None None false w /\
  (_zredmagic (after w) = _z (self_ w) /\
   _zredmagic_e (after w) = _z_err (self_ w) /\
   _mstar (after w) = map (_zredstr (self_ w)) (_z (self_ w))) /\
  (forall p1 b1 e1,
     let w1 := snd (fit p1 b1 e1 true w) in
     _zredmagic (after w1) = _z (self_ w) /\
     _zredmagic_e (after w1) = _z_err (self_ w) /\
     _mstar (after w1) = map (_zredstr (self_ w)) (_z (self_ w))).
Proof.
  intros Hal after. subst after. cbv beta. split; [|split].
  - now rewrite !fit_without_afterburner.
  - rewrite fit_without_afterburner by assumption. now cbn.
  - intros p1 b1 e1 w1.
    destruct (fit_invariant p1 b1 e1 true w Hal) as (Hal1 & Hz & Hze & Hms).
    fold w1 in Hal1, Hz, Hze, Hms.
    rewrite fit_without_afterburner by assumption. cbn.
    now rewrite Hz, Hze, Hms.
Qed.

(** C10: [fit] with [afterburner=True] raises whenever [biaspars] or
    [eratiopars] is [None], and it does so before it touches the
    corrected arrays: [zredmagic] and [zredmagic_e] are as they were. *)
Theorem fit_afterburner_requires_parameters
  (p0_cval : list float) (biaspars eratiopars : option (list float))
  (w : World) :
  biaspars = None \/ eratiopars = None ->
  let out := fit p0_cval biaspars eratiopars true w in
  (exists msg, fst out = Raise (RuntimeError msg)) /\
  _zredmagic (self_ (snd out)) = _zredmagic (self_ w) /\
  _zredmagic_e (self_ (snd out)) = _zredmagic_e (self_ w).
Proof.
  intros Hnone out. subst out.
  unfold fit, bindM, get_self, raise, ret, modify_self, lift. cbn -[cost].
  destruct (is_None (_ab_use (self_ w)) && true); cbn -[cost].
  - split; [eexists; reflexivity | now split].
  - destruct biaspars as [b|]; [destruct eratiopars as [e|]|]; cbn -[cost].
    + destruct Hnone; discriminate.
    + split; [eexists; reflexivity | now split].
    + split; [eexists; reflexivity | now split].
Qed.

End FitterProperties.

(* ================================================================= *)
(** ** Reordering the galaxies *)

Section Reordering.

Context {ext : Externals}.
Import NpFacts.

Variable s : Fitter.
Variable sigma : list nat.
Hypothesis Hal : aligned s = true.
Hypothesis Hsigma : Permutation sigma (seq 0 (Np.size (_z s))).

Let n : nat := Np.size (_z s).

Lemma sigma_length : List.length sigma = n.
Proof.
  rewrite (Permutation_length Hsigma). apply length_seq.
Qed.

Lemma permute_size (a : list float) : Np.size (permute sigma a) = n.
Proof. unfold permute, Np.size. rewrite length_map. apply sigma_length. Qed.

Lemma permute_nth (a : list float) (k : nat) :
  (k < n)%nat -> nth k (permute sigma a) nan = nth (nth k sigma 0%nat) a nan.
Proof.
  intro Hk. unfold permute.
  rewrite (nth_indep _ nan (nth 0 a nan))
    by (rewrite length_map, sigma_length; exact Hk).
  exact (map_nth (fun i => nth i a nan) sigma 0%nat k).
Qed.

Lemma permute_fitter_aligned : aligned (permute_fitter sigma s) = true.
Proof.
  pose proof (aligned_sizes _ Hal) as Hs. cbv zeta in Hs.
  destruct Hs as (_ & _ & _ & _ & _ & _ & _ & _ & _ & Hrg & Hzm).
  apply (aligned_intro _ n); cbn; try apply permute_size; try assumption.
  fold n in Hzm |- *.
  destruct (Np.size (_zmax s) =? n)%nat eqn:E.
  - now rewrite permute_size, Nat.eqb_refl.
  - unfold Np.size in *. now rewrite E.
Qed.

Lemma permute_zmax_at (k : nat) :
  (k < n)%nat ->
  zmax_at (permute_fitter sigma s) k = zmax_at s (nth k sigma 0%nat).
Proof.
  intro Hk. unfold zmax_at. cbn [permute_fitter _zmax _z].
  rewrite permute_size. fold n.
  destruct (Np.size (_zmax s) =? n)%nat eqn:E.
  - rewrite permute_size, Nat.eqb_refl. now apply permute_nth.
  - now rewrite E.
Qed.

Lemma permute_passes (spl : float -> float) (k : nat) :
  (k < n)%nat ->
  passes (permute_fitter sigma s) spl k = passes s spl (nth k sigma 0%nat).
Proof.
  intro Hk. unfold passes, chi2max_at.
  rewrite (permute_zmax_at k Hk). cbn.
  now rewrite !permute_nth by exact Hk.
Qed.

Lemma permute_zsamp_at (k : nat) :
  (k < n)%nat ->
  zsamp_at (permute_fitter sigma s) k = zsamp_at s (nth k sigma 0%nat).
Proof.
  intro Hk. unfold zsamp_at. cbn. now rewrite !permute_nth by exact Hk.
Qed.

Lemma filter_map_commute {A B : Type} (p : B -> bool) (f : A -> B) (l : list A) :
  filter p (map f l) = map f (filter (fun x => p (f x)) l).
Proof.
  induction l as [|x l IH]; simpl; [reflexivity|].
  destruct (p (f x)); simpl; now rewrite IH.
Qed.

Lemma map_filter_ext_in {A B : Type} (p q : A -> bool) (f g : A -> B)
  (l : list A) :
  (forall x, In x l -> p x = q x) -> (forall x, In x l -> f x = g x) ->
  map f (filter p l) = map g (filter q l).
Proof.
  intros Hp Hf. rewrite (filter_ext_in p q l Hp).
  apply map_ext_in. intros x Hx. apply filter_In in Hx. apply Hf, Hx.
Qed.

(** The survivors of the reordered catalog carry the sampled redshifts
    of the survivors of the original, in another order. *)
Lemma permute_survivor_redshifts (spl : float -> float) :
  Permutation
    (map (zsamp_at (permute_fitter sigma s))
       (survivors (permute_fitter sigma s) spl))
    (map (zsamp_at s) (survivors s spl)).
Proof.
  unfold survivors. cbn [_z permute_fitter]. rewrite permute_size. fold n.
  rewrite (map_filter_ext_in
             (passes (permute_fitter sigma s) spl)
             (fun k => passes s spl (nth k sigma 0%nat))
             (zsamp_at (permute_fitter sigma s))
             (fun k => zsamp_at s (nth k sigma 0%nat))).
  - rewrite <- (map_map (fun k => nth k sigma 0%nat) (zsamp_at s)).
    rewrite <- (filter_map_commute (passes s spl) (fun k => nth k sigma 0%nat)).
    assert (Hsig : map (fun k => nth k sigma 0%nat) (seq 0 n) = sigma).
    { symmetry. rewrite <- sigma_length. apply (as_tab 0%nat). }
    rewrite Hsig.
    apply Permutation_map, Permutation_filter. exact Hsigma.
  - intros k Hk. apply in_seq in Hk. apply permute_passes. lia.
  - intros k Hk. apply in_seq in Hk. apply permute_zsamp_at. lia.
Qed.

End Reordering.

Section ReorderingProperty.

Context {ext : Externals}.

Lemma density_cost_counts (s : Fitter) (zs zs' : list float) :
  histogram_counts -> Permutation zs zs' ->
  density_cost s zs = density_cost s zs'.
Proof.
  intros Hh Hp. unfold density_cost.
  destruct (Np.getitem (_zrange s) 0) as [zr0|e]; [|reflexivity].
  destruct (Np.getitem (_zrange s) 1) as [zr1|e]; [|reflexivity].
  cbn [bind]. now rewrite (Hh zs zs' _ _ _ Hp).
Qed.

(** C8: for every permutation applied to all per-galaxy arrays together
    (z, z_err, chisq, mstar, refmag, randomn, the per-galaxy zmax and the
    corrected arrays), [__call__] returns at every parameter vector what
    it returns on the arrays as they were. *)
Theorem cost_permutation_invariant
  (s : Fitter) (sigma : list nat) (pars : list float) (g : RandomState) :
  histogram_counts ->
  aligned s = true ->
  Permutation sigma (seq 0 (Np.size (_z s))) ->
  fst (call pars (mkWorld (permute_fitter sigma s) g)) =
  fst (call pars (mkWorld s g)).
Proof.
  intros Hh Hal Hsigma. rewrite !call_reads_only. cbn [fst self_].
  destruct (CubicSpline (_nodes s) pars) as [spl|e] eqn:Hspl.
  - rewrite (cost_aligned s pars spl Hal Hspl).
    rewrite (cost_aligned (permute_fitter sigma s) pars spl
               (permute_fitter_aligned s sigma Hal Hsigma) Hspl).
    pose proof (permute_survivor_redshifts s sigma Hsigma spl) as Hp.
    pose proof (Permutation_length Hp) as Hlen.
    rewrite !length_map in Hlen. unfold Np.size. rewrite Hlen.
    destruct (List.length (survivors s spl) =? 0)%nat; [reflexivity|].
    change (density_cost (permute_fitter sigma s)) with (density_cost s).
    now apply density_cost_counts.
  - unfold cost. cbn [_nodes permute_fitter]. now rewrite Hspl.
Qed.

End ReorderingProperty.

(* ================================================================= *)
(** ** [fit_bias_eratio] on a fitter built without [ab_use] *)

Section AfterburnerUse.

Context {ext : Externals}.
Import NpFacts.

(** C6: on a fitter built without [ab_use], [fit] with the afterburner
    raises the configuration error, but [fit_bias_eratio] has no such
    check: it goes on to index with [None], builds a mask of two axes and
    fails where it unpacks the result of [np.where], with a [ValueError]
    that has nothing to do with the configuration. *)
Theorem fit_bias_eratio_without_ab_use
  (cval p0_bias p0_eratio p0_cval : list float)
  (biaspars eratiopars : option (list float))
  (spl : float -> float) (w : World) :
  _ab_use (self_ w) = None ->
  aligned (self_ w) = true ->
  CubicSpline (_nodes (self_ w)) cval = Ok spl ->
  fit p0_cval biaspars eratiopars true w =
    (Raise (RuntimeError "Must set afterburner_use if using the afterburner"),
     w) /\
  fit_bias_eratio cval p0_bias p0_eratio w =
    (Raise (ValueError "too many values to unpack (expected 1)"), w).
Proof.
  intros Hab Hal Hspl. split.
  - unfold fit, bindM, get_self, raise. cbn -[cost]. now rewrite Hab.
  - unfold fit_bias_eratio, bindM, get_self, lift. cbn -[fit_bias_eratio_body].
    f_equal. unfold fit_bias_eratio_body. rewrite Hspl, Hab.
    cbn [bind index_ab_use].
    apply aligned_sizes in Hal. cbv zeta in Hal.
    destruct Hal as (Hze & Hzr & Hzre & Hchi & Hms & _ & _ & Hrm & _ & _ & Hzm).
    set (n := Np.size (_z (self_ w))) in *.
    rewrite (broadcast2_nth nan nan ltb n)
      by (assumption || (unfold Np.clip, Np.size; now rewrite !length_map)).
    cbn [bind].
    rewrite (broadcast2_nth nan nan ltb n)
      by (assumption || (unfold Np.size in *; now rewrite length_map)).
    cbn [bind]. rewrite broadcast2_tab. cbn [bind].
    rewrite (broadcast2_per_item_or_scalar nan nan ltb n) by assumption.
    cbn [bind]. rewrite inplace2_same_size.
    destruct (1 <? Np.size (_zmax (self_ w)))%nat; reflexivity.
Qed.

End AfterburnerUse.

(* ================================================================= *)
(** ** Properties of the calibrator *)

Section CalibratorProperties.

Context {ext : Externals}.
Import NpFacts.

Lemma bind_Raise_inv {A B : Type} (c : result A) (k : A -> result B) (e : exn) :
  bind c k = Raise e ->
  c = Raise e \/ exists a, c = Ok a /\ k a = Raise e.
Proof.
  destruct c as [a|e']; simpl; intro H.
  - right. now exists a.
  - left. now inversion H.
Qed.

Lemma getitem_errors {A : Type} (a : list A) (i : nat) (e : exn) :
  Np.getitem a i = Raise e -> e = IndexError.
Proof.
  unfold Np.getitem. destruct (nth_error a i); intro H; now inversion H.
Qed.

Lemma take_errors {A : Type} (a : list A) (idx : list nat) (e : exn) :
  Np.take a idx = Raise e -> e = IndexError.
Proof.
  unfold Np.take. induction idx as [|i idx IH]; simpl; intro H.
  - discriminate.
  - apply bind_Raise_inv in H. destruct H as [H | (x & _ & H)].
    + now apply getitem_errors in H.
    + apply bind_Raise_inv in H. destruct H as [H | (xs & _ & H)].
      * now apply IH.
      * discriminate.
Qed.

Lemma node_zrange_errors (nodes : list float) (zbinsize : float) (j : nat)
  (e : exn) :
  node_zrange nodes zbinsize j = Raise e -> e = IndexError.
Proof.
  unfold node_zrange. intro H.
  apply bind_Raise_inv in H. destruct H as [H | (nj & _ & H)].
  - now apply getitem_errors in H.
  - destruct (j =? 0)%nat; [discriminate|].
    destruct (j =? Np.size nodes - 1)%nat; discriminate.
Qed.

Lemma in_window_errors (gals : list Galaxy) (red_poss : list nat)
  (zrange : float * float) (e : exn) :
  in_window gals red_poss zrange = Raise e -> e = IndexError.
Proof.
  unfold in_window. intro H.
  apply bind_Raise_inv in H. destruct H as [H | (zu & Hzu & H)].
  - now apply take_errors in H.
  - rewrite Hzu in H. cbn [bind] in H.
    rewrite (broadcast2_nth false false andb (Np.size zu)) in H
      by (unfold Np.size; now rewrite length_map).
    discriminate.
Qed.

Lemma starting_value_errors (gals : list Galaxy) (red_poss : list nat)
  (nodes test_vol : list float) (zbinsize n0 : float) (j : nat) (e : exn) :
  starting_value gals red_poss nodes test_vol zbinsize n0 j = Raise e ->
  e = IndexError.
Proof.
  unfold starting_value. intro H.
  apply bind_Raise_inv in H. destruct H as [H | (zrange & _ & H)];
    [now apply node_zrange_errors in H|].
  apply bind_Raise_inv in H. destruct H as [H | (u & _ & H)];
    [now apply in_window_errors in H|].
  apply bind_Raise_inv in H. destruct H as [H | (ru & _ & H)];
    [now apply take_errors in H|].
  apply bind_Raise_inv in H. destruct H as [H | (cu & _ & H)];
    [now apply take_errors in H|].
  apply bind_Raise_inv in H. destruct H as [H | (tv & _ & H)];
    [now apply getitem_errors in H|].
  apply bind_Raise_inv in H. destruct H as [H | (i1 & _ & H)];
    [now apply getitem_errors in H|].
  apply bind_Raise_inv in H. destruct H as [H | (i2 & _ & H)];
    [now apply getitem_errors in H|].
  apply bind_Raise_inv in H. destruct H as [H | (i3 & _ & H)];
    [now apply getitem_errors in H|].
  now apply getitem_errors in H.
Qed.

Lemma starting_value_empty_window (gals : list Galaxy) (red_poss : list nat)
  (nodes test_vol : list float) (zbinsize n0 : float) (j : nat) :
  window_empty gals red_poss nodes zbinsize j ->
  starting_value gals red_poss nodes test_vol zbinsize n0 j = Raise IndexError.
Proof.
  intros (zrange & Hz & Hw). unfold starting_value.
  rewrite Hz. cbn [bind]. rewrite Hw. cbn.
  destruct (Np.getitem test_vol j) as [tv|e] eqn:E; cbn.
  - reflexivity.
  - now rewrite (getitem_errors _ _ _ E).
Qed.

Lemma for_each_raises {A B : Type} (body : A -> result B) (l : list A) (x : A) :
  (forall y e, body y = Raise e -> e = IndexError) ->
  In x l -> body x = Raise IndexError ->
  for_each body l = Raise IndexError.
Proof.
  intros Hall. induction l as [|x0 l IH]; simpl; intros Hin Hx.
  - contradiction.
  - destruct (body x0) as [y|e] eqn:E; cbn [bind].
    + destruct Hin as [-> | Hin]; [congruence|].
      now rewrite (IH Hin Hx).
    + now rewrite (Hall _ _ E).
Qed.

Lemma cut_input_galaxies_none (zredstr : float -> float) (gals : list Galaxy)
  (corr_zrange : float * float) (min_etas chisqcut : float) :
  (forall g, In g gals ->
             possible zredstr corr_zrange min_etas chisqcut g = false) ->
  cut_input_galaxies zredstr gals corr_zrange min_etas chisqcut =
  Raise (RuntimeError "No galaxies in redshift range/chisq range/eta range.").
Proof.
  intro Hnone. unfold cut_input_galaxies. cbv zeta.
  set (n := Np.size gals). set (d := mkGalaxy nan nan nan nan).
  rewrite !map_map.
  rewrite (map_as_tab d (fun g => fst corr_zrange - z_cushion <? zuse g) n)
    by reflexivity.
  rewrite (map_as_tab d (fun g => zuse g <? snd corr_zrange + z_cushion) n)
    by reflexivity.
  rewrite (map_as_tab d (fun g => chisq g <? chisqcut) n) by reflexivity.
  rewrite (map_as_tab d refmag n) by reflexivity.
  rewrite (map_as_tab d
             (fun g => zredstr (zuse g)
                       - 2.5 * log10 (Np.fmax (min_etas - lstar_cushion) 0.1))
             n) by reflexivity.
  repeat (rewrite broadcast2_tab; cbn [bind]).
  rewrite np_where_tab.
  assert (E : filter
                (fun i =>
                   (fst corr_zrange - z_cushion <? zuse (nth i gals d)) &&
                   (zuse (nth i gals d) <? snd corr_zrange + z_cushion) &&
                   (chisq (nth i gals d) <? chisqcut) &&
                   (refmag (nth i gals d)
                      <? zredstr (zuse (nth i gals d))
                         - 2.5 * log10 (Np.fmax (min_etas - lstar_cushion) 0.1)))
                (seq 0 n) = []).
  { destruct (filter _ (seq 0 n)) as [|i l] eqn:F; [reflexivity|].
    assert (Hi : In i (i :: l)) by now left.
    rewrite <- F in Hi. apply filter_In in Hi. destruct Hi as [Hi Hp].
    apply in_seq in Hi.
    assert (Hg : In (nth i gals d) gals) by (apply nth_In; unfold n, Np.size in Hi; lia).
    specialize (Hnone _ Hg). unfold possible in Hnone.
    rewrite Hnone in Hp. discriminate. }
  rewrite E. reflexivity.
Qed.

(** C7: [run] stops with the [RuntimeError] of the configuration when no
    galaxy passes the cut on redshift, chi-square and luminosity; but when
    the window of some node holds no possible galaxy the search for
    starting values reads past the end of an empty array and stops with an
    [IndexError], and so it does when the galaxies of a window are too few
    to reach the target density (here: one galaxy in the window of the
    middle node). *)
Theorem run_failure_modes :
  (forall zredstr gals corr_zrange min_etas chisqcut,
     (forall g, In g gals ->
                possible zredstr corr_zrange min_etas chisqcut g = false) ->
     cut_input_galaxies zredstr gals corr_zrange min_etas chisqcut =
     Raise (RuntimeError
              "No galaxies in redshift range/chisq range/eta range.")) /\
  (forall gals red_poss nodes test_vol zbinsize n0 j,
     (j < Np.size nodes)%nat ->
     window_empty gals red_poss nodes zbinsize j ->
     starting_values gals red_poss nodes test_vol zbinsize n0 =
     Raise IndexError) /\
  (exists zrange,
     node_zrange Demo.nodes3 0.05 1 = Ok zrange /\
     in_window Demo.gals5 [0; 1; 2; 3; 4]%nat zrange = Ok [2%nat] /\
     starting_values Demo.gals5 [0; 1; 2; 3; 4]%nat Demo.nodes3
       Demo.test_vol3 0.05 1 = Raise IndexError).
Proof.
  split; [|split].
  - intros. now apply cut_input_galaxies_none.
  - intros gals red_poss nodes test_vol zbinsize n0 j Hj Hw.
    unfold starting_values. apply (for_each_raises _ _ j).
    + intros y e. apply starting_value_errors.
    + apply in_seq. lia.
    + now apply starting_value_empty_window.
  - eexists. split; [reflexivity|]. split; vm_compute; reflexivity.
Qed.

(** The window of node [j] by its position in the grid. *)
Lemma node_zrange_by_position
  (nodes : list float) (zbinsize : float) (j : nat) (nj : float) :
  nth_error nodes j = Some nj ->
  (j = 0%nat -> node_zrange nodes zbinsize j = Ok (nj, nj + zbinsize)) /\
  (j = (Np.size nodes - 1)%nat -> j <> 0%nat ->
   node_zrange nodes zbinsize j = Ok (nj - zbinsize, nj)) /\
  ((0 < j < Np.size nodes - 1)%nat ->
   node_zrange nodes zbinsize j =
   Ok (nj - zbinsize / 2, nj + zbinsize / 2)).
Proof.
  intro Hnj. unfold node_zrange, Np.getitem. rewrite Hnj. cbn [bind].
  split; [|split].
  - intros ->. reflexivity.
  - intros Hlast Hne. destruct (Nat.eqb_spec j 0); [contradiction|].
    destruct (Nat.eqb_spec j (Np.size nodes - 1)); [reflexivity|contradiction].
  - intros [H0 Hlast]. destruct (Nat.eqb_spec j 0); [lia|].
    destruct (Nat.eqb_spec j (Np.size nodes - 1)); [lia|reflexivity].
Qed.

(** C9: on a grid of at least two nodes, the window of the first node is
    [nodes[0], nodes[0] + zbinsize], with the node at its lower edge; the
    window of the last node is [nodes[last] - zbinsize, nodes[last]], with
    the node at its upper edge; the window of every node between them is
    the symmetric [nodes[j] - zbinsize/2, nodes[j] + zbinsize/2]. *)
Theorem edge_windows_one_sided_interior_symmetric
  (nodes : list float) (zbinsize : float) :
  (2 <= Np.size nodes)%nat ->
  let last := (Np.size nodes - 1)%nat in
  node_zrange nodes zbinsize 0 =
    Ok (nth 0 nodes nan, nth 0 nodes nan + zbinsize) /\
  node_zrange nodes zbinsize last =
    Ok (nth last nodes nan - zbinsize, nth last nodes nan) /\
  (forall j, (0 < j < last)%nat ->
     node_zrange nodes zbinsize j =
     Ok (nth j nodes nan - zbinsize / 2, nth j nodes nan + zbinsize / 2)).
Proof.
  intros Hn last.
  assert (Hnth : forall j, (j < Np.size nodes)%nat ->
            nth_error nodes j = Some (nth j nodes nan)).
  { intros j Hj. now apply nth_error_nth'. }
  split; [|split].
  - apply (node_zrange_by_position nodes zbinsize 0); [apply Hnth; lia|].
    reflexivity.
  - apply (node_zrange_by_position nodes zbinsize last);
      [apply Hnth| |]; unfold last; lia.
  - intros j Hj.
    apply (node_zrange_by_position nodes zbinsize j);
      [apply Hnth|]; unfold last in *; lia.
Qed.

End CalibratorProperties.

(* ================================================================= *)
(** ** The properties on concrete runs *)

Module Runs.

Import Demo.

Lemma bin_counts_counts (fuel : nat) (d d' : list float) (lo hi binsize : float)
  (i : nat) :
  Permutation d d' ->
  bin_counts fuel d lo hi binsize i = bin_counts fuel d' lo hi binsize i.
Proof.
  intro Hp. revert i. induction fuel as [|fuel IH]; intro i; simpl.
  - reflexivity.
  - destruct (lo + Np.of_nat i * binsize <=? hi); [|reflexivity].
    f_equal; [|apply IH].
    f_equal. apply Permutation_length. now apply NpFacts.Permutation_filter.
Qed.

Lemma count_histogram_counts : histogram_counts.
Proof.
  intros d d' lo hi binsize Hp. cbn. unfold count_histogram.
  pose proof (NpFacts.Permutation_filter
                (fun x => (lo <=? x) && (x <=? hi)) _ _ Hp) as Hf.
  rewrite (bin_counts_counts 64 d d' lo hi binsize 0 Hp).
  destruct (filter _ d) as [|x l].
  - apply Permutation_nil in Hf. now rewrite Hf.
  - destruct (filter _ d') as [|x' l']; [|reflexivity].
    apply Permutation_sym, Permutation_nil in Hf. discriminate.
Qed.

(** The constructor accepts the three galaxies. *)
Lemma fitter3_built (ab_use : option (list nat)) :
  fitter3 ab_use = Ok (self3 ab_use) /\ aligned (self3 ab_use) = true.
Proof. split; reflexivity. Qed.

Lemma call_empty_selection_penalty_witness :
  call [0.5] (world3 None) = (Ok 1e11, world3 None).
Proof.
  apply (call_empty_selection_penalty (world3 None) [0.5] (fun _ => 0.5)).
  - vm_compute. reflexivity.
  - reflexivity.
  - intros i Hi. cbn in Hi.
    destruct i as [|[|[|i]]]; try (vm_compute; reflexivity). lia.
Defined.



Lemma fit_without_afterburner_resets_witness :
  _zredmagic
    (self_ (snd (fit [5] (Some [0.01]) (Some [1.5]) false (world3 (Some [0; 2]%nat)))))
  = [0.15; 0.25; 0.35].
Proof.
  apply (fit_without_afterburner_resets [5] (Some [0.01]) (Some [1.5])
           (world3 (Some [0; 2]%nat))).
  vm_compute. reflexivity.
Defined.

Lemma fit_afterburner_requires_parameters_witness :
  _zredmagic
    (self_ (snd (fit [5] (Some [0.01]) None true (world3 (Some [0; 2]%nat)))))
  = [0.15; 0.25; 0.35].
Proof.
  apply (fit_afterburner_requires_parameters [5] (Some [0.01]) None
           (world3 (Some [0; 2]%nat))).
  right. reflexivity.
Defined.

Lemma cost_permutation_invariant_witness :
  fst (call [5] (mkWorld (permute_fitter [2; 0; 1]%nat (self3 None)) generator0))
  =
  fst (call [5] (world3 None)).
Proof.
  apply (cost_permutation_invariant (self3 None) [2; 0; 1]%nat [5] generator0).
  - exact count_histogram_counts.
  - vm_compute. reflexivity.
  - apply (Permutation_cons_app [0; 1]%nat [] 2%nat). apply Permutation_refl.
Defined.

Lemma fit_bias_eratio_without_ab_use_witness :
  fit_bias_eratio [5] [0] [1] (world3 None) =
  (Raise (ValueError "too many values to unpack (expected 1)"), world3 None).
Proof.
  apply (fit_bias_eratio_without_ab_use [5] [0] [1] [5] None None
           (fun _ => 5) (world3 None)).
  - reflexivity.
  - vm_compute. reflexivity.
  - reflexivity.
Defined.

Lemma run_failure_modes_witness :
  cut_input_galaxies (fun _ => 20) gals5 (0.4, 0.5) 1.05 20 =
    Raise (RuntimeError "No galaxies in redshift range/chisq range/eta range.")
  /\
  starting_values gals5 [0; 1; 3; 4]%nat nodes3 test_vol3 0.05 1 =
    Raise IndexError.
Proof.
  split.
  - apply (proj1 run_failure_modes).
    intros g Hg. cbn in Hg.
    repeat (destruct Hg as [<- | Hg]; [vm_compute; reflexivity|]).
    contradiction.
  - apply (proj1 (proj2 run_failure_modes)) with (j := 1%nat).
    + cbn. lia.
    + eexists. split; [reflexivity|]. vm_compute. reflexivity.
Defined.

Lemma edge_windows_one_sided_interior_symmetric_witness :
  node_zrange nodes3 0.05 0 = Ok (0.1, 0.1 + 0.05) /\
  node_zrange nodes3 0.05 2 = Ok (0.3 - 0.05, 0.3) /\
  (forall j, (0 < j < 2)%nat ->
     node_zrange nodes3 0.05 j =
     Ok (nth j nodes3 nan - 0.05 / 2, nth j nodes3 nan + 0.05 / 2)).
Proof.
  apply (edge_windows_one_sided_interior_symmetric nodes3 0.05).
  cbn. lia.
Defined.

End Runs.

(** Runs with a threshold that varies with the redshift, after a fit
    with the afterburner: the corrected redshifts differ from the raw
    ones and the flag is set. *)
Module RunsLinear.

Import DemoLinear.

#[local] Existing Instance DemoLinear.ext.

Lemma world4_corrected_state :
  aligned (self_ world4_corrected) = true /\
  _afterburner (self_ world4_corrected) = true /\
  _z (self_ world4_corrected) = [0.15; 0.25; 0.35; 0.45] /\
  _zredmagic (self_ world4_corrected)
  = [0.15 - 0.1; 0.25 - 0.1; 0.35 - 0.1; 0.45 - 0.1].
Proof. repeat split; vm_compute; reflexivity. Qed.

Lemma threshold_at_raw_z_cut_at_corrected_z_witness :
  let s := self_ world4_corrected in
  exists gd : list nat,
    StronglySorted lt gd /\
    (forall i,
       In i gd <->
       (i < 4)%nat /\
       (nth i (_chisq s) nan
          <? (let t := line_1_40 (nth i (_z s) nan) in
              if t <? 0.1 then 0.1 else if 20 <? t then 20 else t)) = true /\
       (nth i (_refmag s) nan
          <? nth i (_mstar s) nan - 2.5 * log10 1) = true /\
       (nth i (_zredmagic s) nan <? nth 0 (_zmax s) nan) = true) /\
    call [1; 40] world4_corrected =
      (if (Np.size gd =? 0)%nat then Ok 1e11
       else density_cost s
              (map (fun i => nth i (_randomn s) nan * nth i (_zredmagic_e s) nan
                             + nth i (_zredmagic s) nan) gd),
       world4_corrected).
Proof.
  apply (threshold_at_raw_z_cut_at_corrected_z world4_corrected [1; 40]
           line_1_40).
  - vm_compute. reflexivity.
  - reflexivity.
  - reflexivity.
Defined.

(** In that state all four galaxies are selected.  With the threshold
    taken at the corrected redshift the first two would fail the
    chi-square cut, and with the maximum redshift compared with the raw
    redshift the last one would fail the zmax cut. *)
Lemma world4_corrected_selection :
  let s := self_ world4_corrected in
  survivors s line_1_40 = [0; 1; 2; 3]%nat /\
  filter (fun i => nth i (_chisq s) nan
                   <? Np.clip1 (line_1_40 (nth i (_zredmagic s) nan)) 0.1 20)
    (seq 0 4) = [2; 3]%nat /\
  filter (fun i => nth i (_z s) nan <? nth 0 (_zmax s) nan) (seq 0 4)
  = [0; 1; 2]%nat.
Proof. repeat split; vm_compute; reflexivity. Qed.

End RunsLinear.

(* ================================================================= *)
(** ** More properties of the fitter *)

Section MoreFitterProperties.

Context {ext : Externals}.
Import NpFacts.

Lemma broadcast2_mismatch {A B C : Type} (f : A -> B -> C)
  (a : list A) (b : list B) :
  Np.size a <> Np.size b -> Np.size a <> 1%nat -> Np.size b <> 1%nat ->
  Np.broadcast2 f a b =
  Raise (ValueError "operands could not be broadcast together").
Proof.
  intros Hab Ha Hb. unfold Np.broadcast2.
  destruct (Nat.eqb_spec (Np.size a) (Np.size b)); [contradiction|].
  destruct a as [|x [|x' a']]; destruct b as [|y [|y' b']];
    cbn in *; congruence.
Qed.

(** [__init__] accepts its arguments exactly when the seven per-galaxy
    arrays have the size of [z] and [zrange] has two elements, whatever
    the size of [zmax], [volume] or the node arrays; the fitter then
    starts with the corrected arrays equal to the raw ones and with the
    afterburner off; every rejection is a [ValueError]. *)
Theorem init_accepts_iff
  (nodes corrnodes z z_err chisq mstar zcal zcal_err refmag randomn zmax
     : list float)
  (etamin n0 : float) (volume zrange : list float) (zbinsize : float)
  (zredstr : float -> float) (maxchi : float) (ab_use : option (list nat)) :
  let built :=
    init nodes corrnodes z z_err chisq mstar zcal zcal_err refmag randomn
      zmax etamin n0 volume zrange zbinsize zredstr maxchi ab_use in
  (sizes_agree z z_err chisq mstar zcal zcal_err refmag randomn zrange = true ->
   built =
   Ok (mkFitter nodes corrnodes (Np.size nodes) (Np.size corrnodes) z z_err
         z z_err chisq mstar zcal zcal_err refmag randomn zmax etamin n0
         volume zrange zbinsize zredstr ab_use maxchi false)) /\
  (sizes_agree z z_err chisq mstar zcal zcal_err refmag randomn zrange = false ->
   exists msg, built = Raise (ValueError msg)).
Proof.
  cbv zeta. unfold init, sizes_agree.
  cbn [_z _z_err _chisq _mstar _zcal _zcal_err _refmag _randomn _zrange].
  change (List.length zrange) with (Np.size zrange).
  destruct (Np.size z =? Np.size z_err)%nat; cbn [negb andb];
    [|split; [discriminate | eexists; reflexivity]].
  destruct (Np.size z =? Np.size chisq)%nat; cbn [negb andb];
    [|split; [discriminate | eexists; reflexivity]].
  destruct (Np.size z =? Np.size mstar)%nat; cbn [negb andb];
    [|split; [discriminate | eexists; reflexivity]].
  destruct (Np.size z =? Np.size zcal)%nat; cbn [negb andb];
    [|split; [discriminate | eexists; reflexivity]].
  destruct (Np.size z =? Np.size zcal_err)%nat; cbn [negb andb];
    [|split; [discriminate | eexists; reflexivity]].
  destruct (Np.size z =? Np.size refmag)%nat; cbn [negb andb];
    [|split; [discriminate | eexists; reflexivity]].
  destruct (Np.size z =? Np.size randomn)%nat; cbn [negb andb];
    [|split; [discriminate | eexists; reflexivity]].
  destruct (Np.size zrange =? 2)%nat; cbn [negb andb];
    [|split; [discriminate | eexists; reflexivity]].
  split; [reflexivity | discriminate].
Qed.

(** [__init__] does not look at [zmax]: a fitter is built with a [zmax]
    of any size, and when that size is neither one nor the number of
    galaxies every evaluation of the cost raises the [ValueError] of a
    failed broadcast (for more than one galaxy or none; one galaxy is
    itself stretched). *)
Theorem call_rejects_zmax_of_other_size
  (nodes corrnodes z z_err chisq mstar zcal zcal_err refmag randomn zmax
     : list float)
  (etamin n0 : float) (volume zrange : list float) (zbinsize : float)
  (zredstr : float -> float) (maxchi : float) (ab_use : option (list nat))
  (s : Fitter) (pars : list float) (spl : float -> float) (g : RandomState) :
  init nodes corrnodes z z_err chisq mstar zcal zcal_err refmag randomn
    zmax etamin n0 volume zrange zbinsize zredstr maxchi ab_use = Ok s ->
  Np.size zmax <> Np.size z -> Np.size zmax <> 1%nat -> Np.size z <> 1%nat ->
  CubicSpline nodes pars = Ok spl ->
  call pars (mkWorld s g) =
  (Raise (ValueError "operands could not be broadcast together"),
   mkWorld s g).
Proof.
  intros Hinit Hzm Hzm1 Hz1 Hspl.
  destruct (init_accepts_iff nodes corrnodes z z_err chisq mstar zcal zcal_err
              refmag randomn zmax etamin n0 volume zrange zbinsize zredstr
              maxchi ab_use) as [Hyes Hno].
  destruct (sizes_agree z z_err chisq mstar zcal zcal_err refmag randomn zrange)
    eqn:Hsz.
  - rewrite (Hyes eq_refl) in Hinit. inversion Hinit; subst s; clear Hinit.
    unfold sizes_agree in Hsz. rewrite !andb_true_iff, !Nat.eqb_eq in Hsz.
    destruct Hsz as [[[[[[[H1 H2] H3] H4] H5] H6] H7] H8].
    rewrite call_reads_only. cbn [self_]. f_equal.
    unfold cost.
    cbn [_nodes _z _maxchi _randomn _zredmagic_e _zredmagic _chisq _refmag
         _etamin _mstar _zmax].
    rewrite Hspl. cbn [bind].
    set (n := Np.size z) in *.
    rewrite (broadcast2_nth nan nan mul n) by congruence. cbn [bind].
    rewrite (broadcast2_nth_r nan add n) by reflexivity. cbn [bind].
    rewrite (broadcast2_nth nan nan ltb n)
      by (congruence || (unfold Np.clip, Np.size; now rewrite !length_map)).
    cbn [bind].
    rewrite (broadcast2_nth nan nan ltb n)
      by (congruence || (unfold Np.size in *; rewrite length_map; congruence)).
    cbn [bind]. rewrite broadcast2_tab. cbn [bind].
    rewrite broadcast2_mismatch by (unfold n in *; congruence).
    reflexivity.
  - destruct (Hno eq_refl) as [msg Hmsg]. congruence.
Qed.

Lemma nth_map_float (f : float -> float) (a : list float) (i : nat) :
  (i < Np.size a)%nat -> nth i (map f a) nan = f (nth i a nan).
Proof.
  intro Hi. rewrite (nth_indep _ nan (f nan)) by now rewrite length_map.
  apply map_nth.
Qed.

(** [fit] with the afterburner and both parameter vectors, on a fitter
    that has its held-out set: the corrected redshift of each galaxy is
    its raw redshift minus the bias spline at the raw redshift, the
    corrected error is the raw error times the error-ratio spline at the
    raw redshift, [mstar] is taken at the corrected redshifts, the flag
    is set, and what [fit] returns is what the minimizer finds on the
    cost of that fitter. *)
Theorem fit_with_afterburner_corrects
  (p0_cval biaspars eratiopars : list float) (splb sple : float -> float)
  (w : World) :
  aligned (self_ w) = true ->
  _ab_use (self_ w) <> None ->
  CubicSpline (_corrnodes (self_ w)) biaspars = Ok splb ->
  CubicSpline (_corrnodes (self_ w)) eratiopars = Ok sple ->
  let s := self_ w in
  let out := fit p0_cval (Some biaspars) (Some eratiopars) true w in
  let s' := self_ (snd out) in
  Np.size (_zredmagic s') = Np.size (_z s) /\
  Np.size (_zredmagic_e s') = Np.size (_z s) /\
  (forall i, (i < Np.size (_z s))%nat ->
     nth i (_zredmagic s') nan = nth i (_z s) nan - splb (nth i (_z s) nan) /\
     nth i (_zredmagic_e s') nan
       = nth i (_z_err s) nan * sple (nth i (_z s) nan)) /\
  _mstar s' = map (_zredstr s) (_zredmagic s') /\
  _afterburner s' = true /\
  fst out = minimize (fmin p0_cval) (cost s') /\
  np_random (snd out) = np_random w.
Proof.
  intros Hal Hab Hb He s out s'. subst s out s'.
  pose proof (aligned_sizes _ Hal) as Hs. cbv zeta in Hs.
  destruct Hs as (Hze & _).
  set (n := Np.size (_z (self_ w))) in *.
  unfold fit, bindM, get_self, raise, ret, modify_self, lift. cbn -[cost].
  destruct (_ab_use (self_ w)) as [idx|]; [|contradiction]. cbn -[cost].
  rewrite Hb. cbn -[cost].
  rewrite (broadcast2_nth nan nan sub n)
    by (reflexivity || (unfold Np.size; now rewrite length_map)).
  cbn -[cost]. rewrite He. cbn -[cost].
  rewrite (broadcast2_nth nan nan mul n)
    by (assumption || (unfold Np.size; now rewrite length_map)).
  cbn -[cost]. rewrite run_minimizer_call. cbn -[cost].
  split; [apply tab_length|]. split; [apply tab_length|].
  split; [|repeat split].
  intros i Hi. rewrite !tab_nth by exact Hi.
  now rewrite !nth_map_float by exact Hi.
Qed.

(** [fit] is not all-or-nothing: when the bias spline is built and the
    error-ratio spline is rejected, [fit] raises what the spline raised,
    with [zredmagic] already replaced by the corrected redshifts while
    [zredmagic_e] and [mstar] are as before. *)
Theorem fit_stops_between_the_corrections
  (p0_cval biaspars eratiopars : list float) (splb : float -> float)
  (x : exn) (w : World) :
  aligned (self_ w) = true ->
  _ab_use (self_ w) <> None ->
  CubicSpline (_corrnodes (self_ w)) biaspars = Ok splb ->
  CubicSpline (_corrnodes (self_ w)) eratiopars = Raise x ->
  let s := self_ w in
  let out := fit p0_cval (Some biaspars) (Some eratiopars) true w in
  let s' := self_ (snd out) in
  fst out = Raise x /\
  (forall i, (i < Np.size (_z s))%nat ->
     nth i (_zredmagic s') nan = nth i (_z s) nan - splb (nth i (_z s) nan)) /\
  _zredmagic_e s' = _zredmagic_e s /\
  _mstar s' = _mstar s /\
  _afterburner s' = true.
Proof.
  intros Hal Hab Hb He s out s'. subst s out s'.
  set (n := Np.size (_z (self_ w))) in *.
  unfold fit, bindM, get_self, raise, ret, modify_self, lift. cbn -[cost].
  destruct (_ab_use (self_ w)) as [idx|]; [|contradiction]. cbn -[cost].
  rewrite Hb. cbn -[cost].
  rewrite (broadcast2_nth nan nan sub n)
    by (reflexivity || (unfold Np.size; now rewrite length_map)).
  cbn -[cost]. rewrite He. cbn -[cost].
  split; [reflexivity|]. split; [|repeat split].
  intros i Hi. rewrite tab_nth by exact Hi.
  now rewrite nth_map_float by exact Hi.
Qed.

Lemma fit_same_inputs
  (p0_cval : list float) (biaspars eratiopars : option (list float))
  (afterburner : bool) (w : World) :
  same_inputs (self_ w)
    (self_ (snd (fit p0_cval biaspars eratiopars afterburner w))).
Proof.
  unfold fit, bindM, get_self, raise, ret, modify_self, lift. cbn -[cost].
  destruct (is_None (_ab_use (self_ w)) && afterburner); cbn -[cost];
    [now repeat split|].
  destruct afterburner; cbn -[cost].
  - destruct biaspars as [b|]; [destruct eratiopars as [e|]|];
      cbn -[cost]; try (now repeat split).
    destruct (CubicSpline (_corrnodes (self_ w)) b) as [spl|x];
      cbn -[cost]; [|now repeat split].
    destruct (Np.broadcast2 sub _ _) as [zr|x]; cbn -[cost];
      [|now repeat split].
    destruct (CubicSpline (_corrnodes (self_ w)) e) as [spl'|x];
      cbn -[cost]; [|now repeat split].
    destruct (Np.broadcast2 mul _ _) as [ze|x]; cbn -[cost];
      [|now repeat split].
    rewrite run_minimizer_call. now repeat split.
  - destruct (Np.assign_slice _ _) as [zr|x]; cbn -[cost];
      [|now repeat split].
    destruct (Np.assign_slice _ _) as [ze|x]; cbn -[cost];
      [|now repeat split].
    rewrite run_minimizer_call. now repeat split.
Qed.

Lemma same_inputs_refl (s : Fitter) : same_inputs s s.
Proof. now repeat split. Qed.

Lemma same_inputs_trans (s1 s2 s3 : Fitter) :
  same_inputs s1 s2 -> same_inputs s2 s3 -> same_inputs s1 s3.
Proof.
  unfold same_inputs. intros H12 H23.
  repeat match goal with H : _ /\ _ |- _ => destruct H end.
  repeat split; congruence.
Qed.

(** When [fit] returns, in either mode, it leaves [mstar] computed at
    the corrected redshifts it leaves, the afterburner flag as asked,
    and what it returns is what the minimizer finds on the cost of the
    fitter as it is left. *)
Lemma fit_returns_state
  (p0_cval : list float) (biaspars eratiopars : option (list float))
  (afterburner : bool) (w : World) (pars : list float) :
  fst (fit p0_cval biaspars eratiopars afterburner w) = Ok pars ->
  let s' := self_ (snd (fit p0_cval biaspars eratiopars afterburner w)) in
  _mstar s' = map (_zredstr s') (_zredmagic s') /\
  _afterburner s' = afterburner /\
  minimize (fmin p0_cval) (cost s') = Ok pars.
Proof.
  unfold fit, bindM, get_self, raise, ret, modify_self, lift. cbn -[cost].
  destruct (is_None (_ab_use (self_ w)) && afterburner); cbn -[cost];
    [discriminate|].
  destruct afterburner; cbn -[cost].
  - destruct biaspars as [b|]; [destruct eratiopars as [e|]|];
      cbn -[cost]; try discriminate.
    destruct (CubicSpline (_corrnodes (self_ w)) b) as [spl|x];
      cbn -[cost]; [|discriminate].
    destruct (Np.broadcast2 sub _ _) as [zr|x]; cbn -[cost]; [|discriminate].
    destruct (CubicSpline (_corrnodes (self_ w)) e) as [spl'|x];
      cbn -[cost]; [|discriminate].
    destruct (Np.broadcast2 mul _ _) as [ze|x]; cbn -[cost]; [|discriminate].
    rewrite run_minimizer_call. cbn -[cost]. intro H. now repeat split.
  - destruct (Np.assign_slice _ _) as [zr|x]; cbn -[cost]; [|discriminate].
    destruct (Np.assign_slice _ _) as [ze|x]; cbn -[cost]; [|discriminate].
    rewrite run_minimizer_call. cbn -[cost]. intro H. now repeat split.
Qed.

(** Whatever its arguments and however it ends, [fit] assigns nothing
    but [zredmagic], [zredmagic_e], [mstar] and the afterburner flag:
    the nodes, the raw arrays, the calibration redshifts, the draws,
    [zmax], the targets, the volumes, the range and the held-out set are
    as before; and when it returns, [mstar] is the red-sequence magnitude
    at the corrected redshifts it leaves, the flag is the one asked for,
    and the result is what the minimizer finds on the cost of the fitter
    as it is left. *)
Theorem fit_assigns_only_corrected_state
  (p0_cval : list float) (biaspars eratiopars : option (list float))
  (afterburner : bool) (w : World) :
  let out := fit p0_cval biaspars eratiopars afterburner w in
  same_inputs (self_ w) (self_ (snd out)) /\
  (forall pars, fst out = Ok pars ->
     _mstar (self_ (snd out))
       = map (_zredstr (self_ w)) (_zredmagic (self_ (snd out))) /\
     _afterburner (self_ (snd out)) = afterburner /\
     minimize (fmin p0_cval) (cost (self_ (snd out))) = Ok pars).
Proof.
  cbv zeta. split; [apply fit_same_inputs|].
  intros pars H.
  destruct (fit_returns_state _ _ _ _ _ _ H) as (Hm & Hf & Hr).
  pose proof (fit_same_inputs p0_cval biaspars eratiopars afterburner w) as Hs.
  unfold same_inputs in Hs.
  repeat match goal with H : _ /\ _ |- _ => destruct H end.
  repeat split; congruence.
Qed.

(** [fit] without afterburner twice in a row: the second call, whatever
    its [biaspars] and [eratiopars], ends as the first did, with the same
    result and the same fitter. *)
Theorem fit_without_afterburner_twice
  (p0_cval : list float) (b1 e1 b2 e2 : option (list float)) (w : World) :
  aligned (self_ w) = true ->
  fit p0_cval b2 e2 false (snd (fit p0_cval b1 e1 false w)) =
  fit p0_cval b1 e1 false w.
Proof.
  intro Hal.
  destruct (fit_invariant p0_cval b1 e1 false w Hal) as (Hal1 & _).
  rewrite (fit_without_afterburner p0_cval b2 e2 _ Hal1).
  rewrite (fit_without_afterburner p0_cval b1 e1 w Hal).
  reflexivity.
Qed.

(** The cost sees the parameters only through the clipped thresholds at
    the galaxies: two parameter vectors whose splines clip to the same
    threshold at every galaxy's raw redshift have the same cost (so all
    parameters that put the spline above [maxchi] everywhere, or below
    0.1 everywhere, cost the same). *)
Theorem cost_depends_on_clipped_thresholds
  (w : World) (pars1 pars2 : list float) (spl1 spl2 : float -> float) :
  aligned (self_ w) = true ->
  CubicSpline (_nodes (self_ w)) pars1 = Ok spl1 ->
  CubicSpline (_nodes (self_ w)) pars2 = Ok spl2 ->
  (forall i, (i < Np.size (_z (self_ w)))%nat ->
     chi2max_at (self_ w) spl1 i = chi2max_at (self_ w) spl2 i) ->
  call pars1 w = call pars2 w.
Proof.
  intros Hal H1 H2 Hsame. rewrite !call_reads_only. f_equal.
  rewrite (cost_aligned _ _ _ Hal H1), (cost_aligned _ _ _ Hal H2).
  assert (E : survivors (self_ w) spl1 = survivors (self_ w) spl2).
  { unfold survivors. apply filter_ext_in. intros i Hi. apply in_seq in Hi.
    unfold passes. rewrite Hsame by lia. reflexivity. }
  now rewrite E.
Qed.

(** One [zmax] for all galaxies is the same to the cost as an array that
    holds that value for each galaxy. *)
Theorem scalar_zmax_is_constant_zmax
  (s : Fitter) (v : float) (pars : list float) (g : RandomState) :
  aligned s = true ->
  _zmax s = [v] ->
  fst (call pars (mkWorld (set_zmax (repeat v (Np.size (_z s))) s) g)) =
  fst (call pars (mkWorld s g)).
Proof.
  intros Hal Hv. rewrite !call_reads_only. cbn [fst self_].
  set (s' := set_zmax (repeat v (Np.size (_z s))) s).
  pose proof (aligned_sizes _ Hal) as Hs. cbv zeta in Hs.
  destruct Hs as (Hze & Hzr & Hzre & Hchi & Hms & Hzc & Hzce & Hrm & Hrn & Hrg & Hzm).
  assert (Hal' : aligned s' = true).
  { apply (aligned_intro _ (Np.size (_z s))); cbn; try assumption;
      try reflexivity.
    unfold Np.size. now rewrite repeat_length, Nat.eqb_refl. }
  destruct (CubicSpline (_nodes s) pars) as [spl|e] eqn:Hspl.
  - rewrite (cost_aligned s pars spl Hal Hspl).
    rewrite (cost_aligned s' pars spl Hal' Hspl).
    assert (E : survivors s' spl = survivors s spl).
    { unfold survivors. cbn [_z s' set_zmax].
      apply filter_ext_in. intros i Hi. apply in_seq in Hi.
      unfold passes, chi2max_at, zmax_at.
      cbn [_z _chisq _refmag _mstar _etamin _maxchi _zredmagic _zmax s'
           set_zmax].
      f_equal. f_equal.
      unfold Np.size at 1. rewrite repeat_length.
      unfold Np.size at 1. rewrite Nat.eqb_refl.
      rewrite (nth_indep _ nan v) by (rewrite repeat_length; lia).
      rewrite nth_repeat. rewrite Hv.
      destruct (Np.size [v] =? Np.size (_z s))%nat eqn:E1; [|reflexivity].
      apply Nat.eqb_eq in E1. cbn in E1.
      assert (i = 0)%nat by (unfold Np.size in *; lia). now subst i. }
    rewrite E. reflexivity.
  - unfold cost. cbn [_nodes s' set_zmax]. now rewrite Hspl.
Qed.

(** When galaxies survive and the histogram returns a number of bins
    that is not the number of volumes (neither being one), the cost is
    not a number: the evaluation raises the [ValueError] of a failed
    broadcast. *)
Theorem cost_rejects_other_number_of_bins
  (w : World) (pars : list float) (spl : float -> float) (h : list Z) :
  let s := self_ w in
  aligned s = true ->
  CubicSpline (_nodes s) pars = Ok spl ->
  survivors s spl <> [] ->
  histogram (map (zsamp_at s) (survivors s spl))
    (nth 0 (_zrange s) nan) (nth 1 (_zrange s) nan - 0.0001) (_zbinsize s)
    = Ok h ->
  Np.size h <> Np.size (_volume s) ->
  Np.size h <> 1%nat -> Np.size (_volume s) <> 1%nat ->
  call pars w =
  (Raise (ValueError "operands could not be broadcast together"), w).
Proof.
  intros s Hal Hspl Hne Hh Hsz Hh1 Hv1. rewrite call_reads_only. fold s.
  f_equal. rewrite (cost_aligned _ _ _ Hal Hspl).
  destruct (survivors s spl) as [|i0 gd] eqn:Egd; [congruence|].
  cbn [Np.size List.length Nat.eqb]. unfold density_cost.
  apply aligned_sizes in Hal. cbv zeta in Hal.
  destruct Hal as (_ & _ & _ & _ & _ & _ & _ & _ & _ & Hrg & _).
  rewrite (getitem_nth nan) by (rewrite Hrg; lia). cbn [bind].
  rewrite (getitem_nth nan) by (rewrite Hrg; lia). cbn [bind].
  rewrite Hh. cbn [bind].
  rewrite broadcast2_mismatch
    by (unfold Np.size in *; rewrite ?length_map; assumption).
  reflexivity.
Qed.

Lemma take_nth {A : Type} (d : A) (a : list A) (idx : list nat) :
  (forall i, In i idx -> (i < Np.size a)%nat) ->
  Np.take a idx = Ok (map (fun i => nth i a d) idx).
Proof.
  intro H.
  transitivity (Np.take (tab (Np.size a) (fun i => nth i a d)) idx).
  - f_equal. apply as_tab.
  - now apply take_tab.
Qed.





(** An index in [ab_use] that is not the index of a galaxy makes
    [fit_bias_eratio] raise [IndexError]. *)
Theorem fit_bias_eratio_index_out_of_range
  (cval p0_bias p0_eratio : list float) (spl : float -> float)
  (ab_use : list nat) (k : nat) (w : World) :
  let s := self_ w in
  aligned s = true ->
  _ab_use s = Some ab_use ->
  In k ab_use -> (Np.size (_z s) <= k)%nat ->
  CubicSpline (_nodes s) cval = Ok spl ->
  fit_bias_eratio cval p0_bias p0_eratio w = (Raise IndexError, w).
Proof.
  intros s Hal Hab Hk Hbig Hspl.
  unfold fit_bias_eratio, bindM, get_self, lift. cbn -[fit_bias_eratio_body].
  f_equal. fold s. unfold fit_bias_eratio_body. rewrite Hspl, Hab.
  cbn [bind index_ab_use].
  pose proof (aligned_sizes _ Hal) as Hs. cbv zeta in Hs.
  destruct Hs as (_ & _ & _ & Hchi & _).
  assert (E : Np.take (_chisq s) ab_use = Raise IndexError).
  { unfold Np.take. apply (for_each_raises _ _ k).
    - intros y e. apply getitem_errors.
    - exact Hk.
    - unfold Np.getitem.
      assert (Hnone : nth_error (_chisq s) k = None)
        by (apply nth_error_None; unfold Np.size in *; lia).
      now rewrite Hnone. }
  rewrite E. reflexivity.
Qed.

End MoreFitterProperties.

(* ================================================================= *)
(** ** More properties of the calibrator *)

Section MoreCalibratorProperties.

Context {ext : Externals}.
Import NpFacts.

Lemma bind_Ok_inv {A B : Type} (c : result A) (k : A -> result B) (b : B) :
  bind c k = Ok b -> exists a, c = Ok a /\ k a = Ok b.
Proof.
  destruct c as [a|e]; simpl; intro H; [now exists a | discriminate].
Qed.

Lemma getitem_Ok {A : Type} (a : list A) (i : nat) (x : A) :
  Np.getitem a i = Ok x -> nth_error a i = Some x.
Proof.
  unfold Np.getitem. destruct (nth_error a i); intro H; now inversion H.
Qed.

Lemma for_each_Ok_nth {A B : Type} (body : A -> result B) (l : list A)
  (r : list B) :
  for_each body l = Ok r ->
  List.length r = List.length l /\
  forall j x, nth_error l j = Some x ->
              exists y, nth_error r j = Some y /\ body x = Ok y.
Proof.
  revert r. induction l as [|x0 l IH]; simpl; intros r H.
  - inversion H. split; [reflexivity|]. intros [|j] x Hx; discriminate.
  - apply bind_Ok_inv in H. destruct H as (y0 & Hy0 & H).
    apply bind_Ok_inv in H. destruct H as (ys & Hys & H).
    inversion H; subst r; clear H.
    destruct (IH ys Hys) as [Hlen Hnth]. split; [simpl; now f_equal|].
    intros [|j] x Hx; simpl in *.
    + inversion Hx; subst x. now exists y0.
    + now apply Hnth.
Qed.

(** When the search for starting values returns, it returns one value
    per node, and the value of node [j] is the chi-square of a possible
    galaxy that lies in the window of node [j]. *)
Theorem starting_values_are_chisq_in_window
  (gals : list Galaxy) (red_poss : list nat)
  (nodes test_vol : list float) (zbinsize n0 : float) (cmaxvals : list float) :
  starting_values gals red_poss nodes test_vol zbinsize n0 = Ok cmaxvals ->
  Np.size cmaxvals = Np.size nodes /\
  forall j, (j < Np.size nodes)%nat ->
    exists zrange u p,
      node_zrange nodes zbinsize j = Ok zrange /\
      in_window gals red_poss zrange = Ok u /\
      In p u /\
      nth_error cmaxvals j =
      nth_error (map chisq gals) (nth p red_poss 0%nat).
Proof.
  unfold starting_values. intro H.
  apply for_each_Ok_nth in H. destruct H as [Hlen Hnth].
  split; [unfold Np.size; now rewrite Hlen, length_seq|].
  intros j Hj.
  assert (Hseq : nth_error (seq 0 (Np.size nodes)) j = Some j).
  { rewrite (nth_error_nth' _ 0%nat) by now rewrite length_seq.
    now rewrite seq_nth. }
  destruct (Hnth j j Hseq) as (c & Hc & Hbody). rewrite Hc.
  unfold starting_value in Hbody.
  apply bind_Ok_inv in Hbody. destruct Hbody as (zrange & Hz & Hbody).
  apply bind_Ok_inv in Hbody. destruct Hbody as (u & Hu & Hbody).
  apply bind_Ok_inv in Hbody. destruct Hbody as (ru & _ & Hbody).
  apply bind_Ok_inv in Hbody. destruct Hbody as (cu & _ & Hbody).
  apply bind_Ok_inv in Hbody. destruct Hbody as (tv & _ & Hbody).
  apply bind_Ok_inv in Hbody. destruct Hbody as (i1 & _ & Hbody).
  apply bind_Ok_inv in Hbody. destruct Hbody as (i2 & Hi2 & Hbody).
  apply bind_Ok_inv in Hbody. destruct Hbody as (i3 & Hi3 & Hbody).
  apply getitem_Ok in Hi2, Hi3, Hbody.
  exists zrange, u, i2. split; [exact Hz|]. split; [exact Hu|].
  split; [now apply nth_error_In in Hi2|].
  rewrite (nth_error_nth _ _ 0%nat Hi3). now rewrite Hbody.
Qed.

Lemma bisect_left_all_less (a : list float) (v : float) (hi : nat) :
  (forall p, (p < hi)%nat -> Np.less (nth p a nan) v = true) ->
  forall fuel lo, (lo <= hi)%nat -> (hi - lo < fuel)%nat ->
                  Np.bisect_left fuel a v lo hi = hi.
Proof.
  intro Hall. induction fuel as [|fuel IH]; intros lo Hlo Hfuel; [lia|].
  cbn [Np.bisect_left]. cbv zeta.
  destruct (Nat.ltb_spec lo hi) as [Hlt|Hge];
    [|lia].
  assert (Hd : (Nat.div2 (hi - lo) < hi - lo)%nat)
    by (apply Nat.lt_div2; lia).
  remember (Nat.div2 (hi - lo)) as d eqn:Ed. clear Ed.
  rewrite Hall by lia. apply IH; lia.
Qed.

(** A key above every entry is searched to the end of the array. *)
Lemma searchsorted_all_less (a : list float) (v : float) :
  (forall p, (p < Np.size a)%nat -> Np.less (nth p a nan) v = true) ->
  Np.searchsorted a v = Np.size a.
Proof.
  intro Hall. unfold Np.searchsorted.
  apply bisect_left_all_less; [exact Hall | lia | lia].
Qed.

Lemma insert_index_perm (a : list float) (i : nat) (sorted : list nat) :
  Permutation (Np.insert_index a i sorted) (i :: sorted).
Proof.
  induction sorted as [|j rest IH]; simpl.
  - apply Permutation_refl.
  - destruct (Np.less (nth i a nan) (nth j a nan)).
    + apply Permutation_refl.
    + apply (perm_trans (perm_skip j IH)). apply perm_swap.
Qed.

(** [np.argsort] returns the indices of the array, each once. *)
Lemma argsort_perm (a : list float) :
  Permutation (Np.argsort a) (seq 0 (Np.size a)).
Proof.
  unfold Np.argsort.
  assert (H : forall l acc,
            Permutation
              (fold_left (fun sorted i => Np.insert_index a i sorted) l acc)
              (l ++ acc)).
  { induction l as [|i l IH]; intro acc; simpl.
    - apply Permutation_refl.
    - apply (perm_trans (IH _)).
      apply (perm_trans (Permutation_app_head l (insert_index_perm a i acc))).
      apply Permutation_sym, Permutation_middle. }
  specialize (H (seq 0 (Np.size a)) []). now rewrite app_nil_r in H.
Qed.

Lemma argsort_size (a : list float) : Np.size (Np.argsort a) = Np.size a.
Proof.
  unfold Np.size at 1. rewrite (Permutation_length (argsort_perm a)).
  apply length_seq.
Qed.

(** The search for starting values cannot succeed at a node whose window
    holds too few galaxies for the target density: when every count [k]
    below the number of galaxies in the window has [k / test_vol[j]]
    below [n0 * 1e-4] (no galaxy at all being the extreme case), the
    index found is the size of the sorted array and the whole loop ends
    in [IndexError]. *)
Theorem starting_values_too_few_in_window
  (gals : list Galaxy) (red_poss : list nat)
  (nodes test_vol : list float) (zbinsize n0 : float)
  (j : nat) (zrange : float * float) (u : list nat) (tv : float) :
  (j < Np.size nodes)%nat ->
  node_zrange nodes zbinsize j = Ok zrange ->
  in_window gals red_poss zrange = Ok u ->
  Np.getitem test_vol j = Ok tv ->
  (forall k, (k < Np.size u)%nat ->
             Np.less (Np.of_nat k / tv) (n0 * 1e-4) = true) ->
  starting_values gals red_poss nodes test_vol zbinsize n0 = Raise IndexError.
Proof.
  intros Hj Hz Hu Htv Hfew.
  unfold starting_values. apply (for_each_raises _ _ j).
  - intros y e. apply starting_value_errors.
  - apply in_seq. lia.
  - destruct (starting_value gals red_poss nodes test_vol zbinsize n0 j)
      as [c|e] eqn:E.
    + exfalso. unfold starting_value in E. rewrite Hz in E.
      cbn [bind] in E. rewrite Hu in E. cbn [bind] in E.
      apply bind_Ok_inv in E. destruct E as (ru & Hru & E).
      apply bind_Ok_inv in E. destruct E as (cu & Hcu & E).
      rewrite Htv in E. cbn [bind] in E.
      apply bind_Ok_inv in E. destruct E as (i1 & Hi1 & _).
      apply getitem_Ok in Hi1.
      assert (Hsz : Np.size (Np.argsort cu) = Np.size u).
      { rewrite argsort_size. unfold Np.take in Hcu, Hru.
        apply for_each_Ok_nth in Hcu, Hru. unfold Np.size.
        destruct Hcu as [Hcu _]. destruct Hru as [Hru _]. congruence. }
      rewrite searchsorted_all_less in Hi1.
      * unfold Np.size in Hi1 at 1. rewrite length_map, length_seq in Hi1.
        assert (Hnone : nth_error (Np.argsort cu) (Np.size u) = None)
          by (apply nth_error_None; unfold Np.size in *; lia).
        congruence.
      * intros p Hp. unfold Np.size in Hp.
        rewrite length_map, length_seq in Hp.
        rewrite (nth_indep _ nan ((fun k => Np.of_nat k / tv) 0%nat))
          by now rewrite length_map, length_seq.
        rewrite (map_nth (fun k => Np.of_nat k / tv)).
        rewrite seq_nth by exact Hp. now apply Hfew.
    + now rewrite (starting_value_errors _ _ _ _ _ _ _ _ E).
Qed.

(** The galaxies for the afterburner: the chosen positions are distinct,
    each is a position of a possible galaxy whose calibration redshift is
    above zero (the value -1 of a galaxy without one is never chosen),
    and for a count [ntrain] that is not negative there are [ntrain] of
    them, or all that have a calibration redshift if these are fewer. *)
Theorem afterburner_use_has_calibration_redshifts
  (gals_zcal : list float) (red_poss : list nat) (ntrain : Z)
  (r zc : list float) :
  Np.take gals_zcal red_poss = Ok zc ->
  Np.size r = Np.size (Np.np_where (map (fun x => 0 <? x) zc)) ->
  exists use,
    afterburner_use gals_zcal red_poss ntrain r = Ok use /\
    NoDup use /\
    (forall k, In k use ->
       (k < Np.size red_poss)%nat /\ (0 <? nth k zc nan) = true) /\
    ((0 <= ntrain)%Z ->
     Np.size use =
     Nat.min (Z.to_nat ntrain)
       (Np.size (Np.np_where (map (fun x => 0 <? x) zc)))).
Proof.
  intros Hzc Hr. unfold afterburner_use. rewrite Hzc. cbn [bind].
  set (gd := Np.np_where (map (fun x => 0 <? x) zc)) in *.
  set (st := Np.argsort r).
  assert (Hst : Permutation st (seq 0 (Np.size gd)))
    by (unfold st; rewrite <- Hr; apply argsort_perm).
  assert (Hsl : exists m, slice_to st ntrain = firstn m st /\
                          ((0 <= ntrain)%Z -> m = Z.to_nat ntrain)).
  { unfold slice_to. destruct (Z.leb_spec 0 ntrain).
    - eexists. split; [reflexivity | reflexivity].
    - eexists. split; [reflexivity | lia]. }
  destruct Hsl as (m & Hsl & Hm). rewrite Hsl.
  assert (Hin : forall i, In i (firstn m st) -> (i < Np.size gd)%nat).
  { intros i Hi.
    assert (Hi' : In i st)
      by (rewrite <- (firstn_skipn m st); apply in_or_app; now left).
    apply (Permutation_in _ Hst) in Hi'. apply in_seq in Hi'. lia. }
  assert (Hnd : NoDup (firstn m st)).
  { assert (Hnd' : NoDup st)
      by (apply (Permutation_NoDup (Permutation_sym Hst)), seq_NoDup).
    rewrite <- (firstn_skipn m st) in Hnd'.
    now apply NoDup_app_remove_r in Hnd'. }
  assert (Hgd : NoDup gd) by (apply NoDup_filter, seq_NoDup).
  assert (Hgdspec : forall k, In k gd ->
            (k < Np.size zc)%nat /\ (0 <? nth k zc nan) = true).
  { intros k Hk. unfold gd, Np.np_where in Hk. apply filter_In in Hk.
    destruct Hk as [Hk Hp]. apply in_seq in Hk.
    unfold Np.size in Hk. rewrite length_map in Hk.
    split; [unfold Np.size; lia|].
    rewrite (nth_indep _ false ((fun x => 0 <? x) nan)) in Hp
      by (rewrite length_map; lia).
    now rewrite (map_nth (fun x => 0 <? x)) in Hp. }
  assert (Hzcsz : Np.size zc = Np.size red_poss).
  { unfold Np.take in Hzc. apply for_each_Ok_nth in Hzc.
    unfold Np.size. tauto. }
  rewrite (take_nth 0%nat gd) by exact Hin.
  eexists. split; [reflexivity|]. split; [|split].
  - apply Finite.Injective_map_NoDup_in; [|exact Hnd].
    intros x y Hx Hy Exy.
    apply (proj1 (NoDup_nth gd 0%nat) Hgd); unfold Np.size in *; auto.
  - intros k Hk. apply in_map_iff in Hk. destruct Hk as (i & <- & Hi).
    rewrite <- Hzcsz. apply Hgdspec. apply nth_In.
    specialize (Hin i Hi). unfold Np.size in Hin. exact Hin.
  - intro Hpos. unfold Np.size at 1. rewrite length_map, length_firstn.
    rewrite (Hm Hpos). rewrite (Permutation_length Hst), length_seq.
    reflexivity.
Qed.

(** The area table is read at the position where a redshift would be
    inserted into [astr.z]: a bin centre or a node above every redshift
    of the table is past its end, and reading the area there raises
    [IndexError]. *)
Theorem areas_at_beyond_table (astr_z astr_area zs : list float) (z : float) :
  Np.size astr_area = Np.size astr_z ->
  In z zs ->
  (forall p, (p < Np.size astr_z)%nat ->
             Np.less (nth p astr_z nan) z = true) ->
  areas_at astr_z astr_area zs = Raise IndexError.
Proof.
  intros Hsz Hz Hall. unfold areas_at, Np.take.
  apply (for_each_raises _ _ (Np.searchsorted astr_z z)).
  - intros y e. apply getitem_errors.
  - apply in_map_iff. now exists z.
  - rewrite (searchsorted_all_less _ _ Hall). unfold Np.getitem.
    assert (Hnone : nth_error astr_area (Np.size astr_z) = None)
      by (apply nth_error_None; unfold Np.size in *; lia).
    now rewrite Hnone.
Qed.

Lemma split_head_cases (sep s : string) :
  exists rest,
    s = String.append (split_head sep s) rest /\
    (rest = EmptyString \/ String.prefix sep rest = true).
Proof.
  induction s as [|c s IH].
  - exists EmptyString. split; [reflexivity | now left].
  - cbn [split_head]. destruct (String.prefix sep (String c s)) eqn:E.
    + exists (String c s). split; [reflexivity | now right].
    + destruct IH as (rest & Hs & Hrest). exists rest.
      split; [cbn; now f_equal | exact Hrest].
Qed.

Lemma append_inv_head (p a b : string) :
  String.append p a = String.append p b -> a = b.
Proof.
  induction p as [|c p IH]; cbn; intro H; [exact H|].
  inversion H. now apply IH.
Qed.

(** The name of the run file is never the name of the configuration
    file it is made from, whatever that name is. *)
Theorem runfile_name_is_new (configfile : string) :
  runfile_name configfile <> configfile.
Proof.
  unfold runfile_name. cbv zeta.
  destruct (String.eqb_spec (str_replace "cal" "run" configfile) configfile)
    as [_|Hne]; [|exact Hne].
  destruct (split_head_cases ".y" configfile) as (rest & Hs & Hrest).
  intro H. rewrite Hs in H at 2. apply append_inv_head in H.
  destruct Hrest as [Hr|Hr]; rewrite <- H in Hr; discriminate.
Qed.

End MoreCalibratorProperties.

(* ================================================================= *)
(** ** Properties of the fitting stage of [run] *)

Section FitSelectionProperties.

Context {ext : Externals}.

Lemma fit_bias_eratio_reads_only (cval p0_bias p0_eratio : list float)
  (w : World) :
  fit_bias_eratio cval p0_bias p0_eratio w =
  (fit_bias_eratio_body (self_ w) cval p0_bias p0_eratio, w).
Proof. reflexivity. Qed.

Lemma afterburner_rounds_S (k : nat)
  (cmaxvals biasvals eratiovals : list float) (w : World) :
  afterburner_rounds (S k) cmaxvals biasvals eratiovals w =
  match fit_bias_eratio_body (self_ w) cmaxvals biasvals eratiovals with
  | Ok be =>
      match fit cmaxvals (Some (fst be)) (Some (snd be)) true w with
      | (Ok cmaxvals', w') =>
          afterburner_rounds k cmaxvals' (fst be) (snd be) w'
      | (Raise x, w') => (Raise x, w')
      end
  | Raise x => (Raise x, w)
  end.
Proof.
  cbn [afterburner_rounds]. unfold bindM.
  rewrite fit_bias_eratio_reads_only.
  destruct (fit_bias_eratio_body (self_ w) cmaxvals biasvals eratiovals);
    reflexivity.
Qed.

Lemma fit_selection_unfold (cmaxvals : list float) (n_corrnodes : nat)
  (run_afterburner : bool) (w : World) :
  fit_selection cmaxvals n_corrnodes run_afterburner w =
  match fit cmaxvals None None false w with
  | (Ok c, w1) =>
      if run_afterburner then
        match afterburner_rounds 5 c (repeat 0 n_corrnodes)
                (repeat 1 n_corrnodes) w1 with
        | (Ok r, w2) =>
            match fit_bias_eratio_body (self_ w2) (fst r) (fst (snd r))
                    (snd (snd r)) with
            | Ok be => (Ok (fst r, be), w2)
            | Raise x => (Raise x, w2)
            end
        | (Raise x, w2) => (Raise x, w2)
        end
      else (Ok (c, (repeat 0 n_corrnodes, repeat 1 n_corrnodes)), w1)
  | (Raise x, w1) => (Raise x, w1)
  end.
Proof.
  unfold fit_selection, bindM.
  destruct (fit cmaxvals None None false w) as [[c|x] w1]; [|reflexivity].
  destruct run_afterburner; [|reflexivity].
  destruct (afterburner_rounds 5 c (repeat 0 n_corrnodes)
              (repeat 1 n_corrnodes) w1) as [[r|x] w2]; [|reflexivity].
  rewrite fit_bias_eratio_reads_only.
  destruct (fit_bias_eratio_body (self_ w2) (fst r) (fst (snd r))
              (snd (snd r))); reflexivity.
Qed.

Lemma afterburner_rounds_frame (k : nat) :
  forall (cmaxvals biasvals eratiovals : list float) (w : World),
    same_inputs (self_ w)
      (self_ (snd (afterburner_rounds k cmaxvals biasvals eratiovals w))) /\
    np_random (snd (afterburner_rounds k cmaxvals biasvals eratiovals w))
    = np_random w.
Proof.
  induction k as [|k IH]; intros c b e w.
  - split; [apply same_inputs_refl | reflexivity].
  - rewrite afterburner_rounds_S.
    destruct (fit_bias_eratio_body (self_ w) c b e) as [be|x];
      [|split; [apply same_inputs_refl | reflexivity]].
    pose proof (fit_same_inputs c (Some (fst be)) (Some (snd be)) true w)
      as Hs.
    pose proof (fit_keeps_randomness c (Some (fst be)) (Some (snd be)) true w)
      as [Hg _].
    destruct (fit c (Some (fst be)) (Some (snd be)) true w) as [[c'|x] w2];
      cbn [fst snd] in *; [|now split].
    destruct (IH c' (fst be) (snd be) w2) as [Hs2 Hg2].
    split; [now apply (same_inputs_trans _ _ _ Hs) | congruence].
Qed.

(** The whole fitting stage of a selection (first pass, five rounds with
    the afterburner, last fit of bias and error ratio), however it ends:
    numpy's generator is not advanced and nothing of the fitter is
    assigned but [zredmagic], [zredmagic_e], [mstar] and the flag. *)
Theorem fit_selection_assigns_only_corrected_state
  (cmaxvals : list float) (n_corrnodes : nat) (run_afterburner : bool)
  (w : World) :
  let w' := snd (fit_selection cmaxvals n_corrnodes run_afterburner w) in
  same_inputs (self_ w) (self_ w') /\ np_random w' = np_random w.
Proof.
  cbv zeta. rewrite fit_selection_unfold.
  pose proof (fit_same_inputs cmaxvals None None false w) as Hs.
  pose proof (fit_keeps_randomness cmaxvals None None false w) as [Hg _].
  destruct (fit cmaxvals None None false w) as [[c|x] w1];
    cbn [fst snd] in *; [|now split].
  destruct run_afterburner; [|now split].
  destruct (afterburner_rounds_frame 5 c (repeat 0 n_corrnodes)
              (repeat 1 n_corrnodes) w1) as [Hs2 Hg2].
  destruct (afterburner_rounds 5 c (repeat 0 n_corrnodes)
              (repeat 1 n_corrnodes) w1) as [[r|x] w2]; cbn [fst snd] in *.
  - destruct (fit_bias_eratio_body (self_ w2) (fst r) (fst (snd r))
                (snd (snd r))) as [be|x]; cbn [fst snd];
      (split; [now apply (same_inputs_trans _ _ _ Hs) | congruence]).
  - split; [now apply (same_inputs_trans _ _ _ Hs) | congruence].
Qed.

Lemma afterburner_rounds_returns (k : nat) :
  forall (cmaxvals biasvals eratiovals : list float) (w : World)
         (r : list float * (list float * list float)),
    fst (afterburner_rounds (S k) cmaxvals biasvals eratiovals w) = Ok r ->
    let s' :=
      self_ (snd (afterburner_rounds (S k) cmaxvals biasvals eratiovals w)) in
    _afterburner s' = true /\
    _mstar s' = map (_zredstr s') (_zredmagic s') /\
    exists c_prev, minimize (fmin c_prev) (cost s') = Ok (fst r).
Proof.
  induction k as [|k IH]; intros c b e w r; rewrite afterburner_rounds_S;
    destruct (fit_bias_eratio_body (self_ w) c b e) as [be|x];
    try discriminate.
  - pose proof (fit_returns_state c (Some (fst be)) (Some (snd be)) true w)
      as Hret.
    destruct (fit c (Some (fst be)) (Some (snd be)) true w) as [[c'|x] w2];
      cbn [fst snd afterburner_rounds ret] in *; [|discriminate].
    intro H. inversion H; subst r; clear H. cbn [fst].
    destruct (Hret c' eq_refl) as (Hm & Hf & Hr).
    split; [exact Hf|]. split; [exact Hm|]. now exists c.
  - destruct (fit c (Some (fst be)) (Some (snd be)) true w) as [[c'|x] w2];
      [|discriminate].
    apply IH.
Qed.

(** What the fitting stage returns.  Without the afterburner on an
    aligned fitter: the thresholds of the first pass with a bias of
    zeros and an error ratio of ones, one per correction node, the
    fitter being left with its corrected arrays reset to the raw ones.
    With the afterburner, when it returns: the fitter is left in
    afterburner mode with [mstar] at the corrected redshifts, the
    thresholds returned are those the minimizer found on the cost of the
    fitter as it is left, and the bias and error ratio returned are a
    later fit, made on that fitter with those thresholds. *)
Theorem fit_selection_returns
  (cmaxvals : list float) (n_corrnodes : nat) (w : World) :
  (aligned (self_ w) = true ->
   fit_selection cmaxvals n_corrnodes false w =
   (match minimize (fmin cmaxvals) (cost (reset_to_raw (self_ w))) with
    | Ok c => Ok (c, (repeat 0 n_corrnodes, repeat 1 n_corrnodes))
    | Raise e => Raise e
    end,
    mkWorld (reset_to_raw (self_ w)) (np_random w))) /\
  (forall r,
     fst (fit_selection cmaxvals n_corrnodes true w) = Ok r ->
     let s' := self_ (snd (fit_selection cmaxvals n_corrnodes true w)) in
     _afterburner s' = true /\
     _mstar s' = map (_zredstr s') (_zredmagic s') /\
     (exists c_prev, minimize (fmin c_prev) (cost s') = Ok (fst r)) /\
     (exists b_prev e_prev,
        fit_bias_eratio_body s' (fst r) b_prev e_prev = Ok (snd r))).
Proof.
  split.
  - intro Hal. rewrite fit_selection_unfold.
    rewrite (fit_without_afterburner cmaxvals None None w Hal).
    destruct (minimize (fmin cmaxvals) (cost (reset_to_raw (self_ w))));
      reflexivity.
  - intro r. rewrite fit_selection_unfold.
    destruct (fit cmaxvals None None false w) as [[c|x] w1]; [|discriminate].
    pose proof (afterburner_rounds_returns 4 c (repeat 0 n_corrnodes)
                  (repeat 1 n_corrnodes) w1) as Hret.
    destruct (afterburner_rounds 5 c (repeat 0 n_corrnodes)
                (repeat 1 n_corrnodes) w1) as [[r5|x] w2];
      cbn [fst snd] in *; [|discriminate].
    destruct (fit_bias_eratio_body (self_ w2) (fst r5) (fst (snd r5))
                (snd (snd r5))) as [be|x] eqn:Ebe; cbn [fst snd];
      [|discriminate].
    intro H. inversion H; subst r; clear H. cbn [fst snd].
    destruct (Hret r5 eq_refl) as (Hf & Hm & Hc).
    split; [exact Hf|]. split; [exact Hm|]. split; [exact Hc|].
    now exists (fst (snd r5)), (snd (snd r5)).
Qed.

End FitSelectionProperties.

(* ================================================================= *)
(** ** The randomness of a run *)

Section RandomnessProperties.

Context {ext : Externals}.

Lemma afterburner_rounds_keeps_randomness (k : nat) :
  forall (cmaxvals biasvals eratiovals : list float) (w : World),
    np_random (snd (afterburner_rounds k cmaxvals biasvals eratiovals w))
    = np_random w /\
    _randomn (self_ (snd (afterburner_rounds k cmaxvals biasvals eratiovals w)))
    = _randomn (self_ w).
Proof.
  induction k as [|k IH]; intros c b e w.
  - now split.
  - rewrite afterburner_rounds_S.
    destruct (fit_bias_eratio_body (self_ w) c b e) as [be|x]; [|now split].
    pose proof (fit_keeps_randomness c (Some (fst be)) (Some (snd be)) true w)
      as [Hg Hr].
    destruct (fit c (Some (fst be)) (Some (snd be)) true w) as [[c'|x] w2];
      cbn [fst snd] in *; [|now split].
    destruct (IH c' (fst be) (snd be) w2) as [Hg2 Hr2].
    split; congruence.
Qed.

Lemma fit_selection_keeps_randomness
  (cmaxvals : list float) (n_corrnodes : nat) (run_afterburner : bool)
  (w : World) :
  np_random (snd (fit_selection cmaxvals n_corrnodes run_afterburner w))
  = np_random w /\
  _randomn (self_ (snd (fit_selection cmaxvals n_corrnodes run_afterburner w)))
  = _randomn (self_ w).
Proof.
  rewrite fit_selection_unfold.
  pose proof (fit_keeps_randomness cmaxvals None None false w) as [Hg Hr].
  destruct (fit cmaxvals None None false w) as [[c|x] w1];
    cbn [fst snd] in *; [|now split].
  destruct run_afterburner; [|now split].
  destruct (afterburner_rounds_keeps_randomness 5 c (repeat 0 n_corrnodes)
              (repeat 1 n_corrnodes) w1) as [Hg2 Hr2].
  destruct (afterburner_rounds 5 c (repeat 0 n_corrnodes)
              (repeat 1 n_corrnodes) w1) as [[r|x] w2]; cbn [fst snd] in *.
  - destruct (fit_bias_eratio_body (self_ w2) (fst r) (fst (snd r))
                (snd (snd r))) as [be|x]; cbn [fst snd]; split; congruence.
  - split; congruence.
Qed.

(** C4: the draws [randomn] are taken once, from the generator or as
    zeros, before the fitter is constructed, and the fitter is
    constructed on them; an evaluation of the cost leaves the fitter and
    the generator as they were, so a second evaluation at the same
    parameters returns the same cost, whatever the state of the
    generator; no sequence of evaluations that a minimizer asks for
    changes anything; and when the whole fitting stage of the selection
    is over, however it ended, the generator is where the draws left it
    and the fitter still holds the same draws. *)
Theorem cost_function_deterministic
  (pz_integrate : bool)
  (nodes corrnodes z z_err chisq mstar zcal zcal_err refmag zmax : list float)
  (etamin n0 : float) (volume zrange : list float) (zbinsize : float)
  (zredstr : float -> float) (maxchi : float) (afterburner_use : list nat)
  (cmaxvals : list float) (run_afterburner : bool) (w : World) :
  let n := Np.size z in
  let randomn :=
    if pz_integrate then fst (random_normal n (np_random w))
    else repeat 0 n in
  let w1 := snd (draw_randomn pz_integrate n w) in
  let construct :=
    construct_fitter nodes corrnodes z z_err chisq mstar zcal zcal_err
      refmag randomn zmax etamin n0 volume zrange zbinsize zredstr maxchi
      afterburner_use in
  let w2 := snd (construct w1) in
  let w3 :=
    snd (fit_selection cmaxvals (Np.size corrnodes) run_afterburner w2) in
  fst (construct w1) = Ok tt ->
  fst (draw_randomn pz_integrate n w) = Ok randomn /\
  (pz_integrate = false -> w1 = w) /\
  _randomn (self_ w2) = randomn /\
  np_random w2 = np_random w1 /\
  (forall pars w',
     snd (call pars w') = w' /\
     fst (call pars (snd (call pars w'))) = fst (call pars w')) /\
  (forall pars s g g',
     fst (call pars (mkWorld s g)) = fst (call pars (mkWorld s g'))) /\
  (forall m w', snd (run_minimizer m call w') = w') /\
  np_random w3 = np_random w1 /\
  _randomn (self_ w3) = randomn.
Proof.
  intros n randomn w1 construct w2 w3 Hc.
  assert (Hd : fst (draw_randomn pz_integrate n w) = Ok randomn).
  { unfold draw_randomn, np_random_normal, ret, randomn.
    destruct pz_integrate; [|reflexivity].
    now destruct (random_normal n (np_random w)). }
  assert (H2 : _randomn (self_ w2) = randomn /\ np_random w2 = np_random w1).
  { unfold w2 in *. unfold construct, construct_fitter, bindM, lift,
      modify_self, init in *.
    repeat match type of Hc with
    | context [if ?b then _ else _] => destruct b; [discriminate|]
    end.
    now split. }
  destruct H2 as [Hr2 Hg2].
  destruct (fit_selection_keeps_randomness cmaxvals (Np.size corrnodes)
              run_afterburner w2) as [Hg3 Hr3].
  split; [exact Hd|]. split.
  { intros ->. reflexivity. }
  split; [exact Hr2|]. split; [exact Hg2|]. split.
  { intros pars w'. rewrite !call_reads_only. now split. }
  split.
  { intros pars s g g'. now rewrite !call_reads_only. }
  split.
  { intros m w'. now rewrite run_minimizer_call. }
  split; unfold w3; congruence.
Qed.

End RandomnessProperties.

(* ================================================================= *)
(** ** More properties on concrete runs *)

Module MoreRuns.

Import Demo.
Import Demo2.

Lemma init_accepts_iff_witness :
  fitter3 None =
  Ok (mkFitter [0.25] [0.25] 1 1 [0.15; 0.25; 0.35] [0.01; 0.01; 0.01]
        [0.15; 0.25; 0.35] [0.01; 0.01; 0.01] [1; 2; 30] [20; 20; 20]
        [0.15; -1; 0.36] [0.001; -1; 0.001] [18; 19; 19.5] [0; 0; 0] [0.5]
        1 1 [10000; 20000; 30000] [0.1; 0.4] 0.1 (fun _ => 20) None 20 false).
Proof.
  apply (init_accepts_iff [0.25] [0.25] [0.15; 0.25; 0.35]
           [0.01; 0.01; 0.01] [1; 2; 30] [20; 20; 20] [0.15; -1; 0.36]
           [0.001; -1; 0.001] [18; 19; 19.5] [0; 0; 0] [0.5] 1 1
           [10000; 20000; 30000] [0.1; 0.4] 0.1 (fun _ => 20) 20 None).
  reflexivity.
Defined.

Lemma call_rejects_zmax_of_other_size_witness :
  call [5] (mkWorld (self3_with [0.5; 0.5] [10000; 20000; 30000]) generator0) =
  (Raise (ValueError "operands could not be broadcast together"),
   mkWorld (self3_with [0.5; 0.5] [10000; 20000; 30000]) generator0).
Proof.
  apply (call_rejects_zmax_of_other_size [0.25] [0.25] [0.15; 0.25; 0.35]
           [0.01; 0.01; 0.01] [1; 2; 30] [20; 20; 20] [0.15; -1; 0.36]
           [0.001; -1; 0.001] [18; 19; 19.5] [0; 0; 0] [0.5; 0.5] 1 1
           [10000; 20000; 30000] [0.1; 0.4] 0.1 (fun _ => 20) 20 None
           (self3_with [0.5; 0.5] [10000; 20000; 30000]) [5] (fun _ => 5)
           generator0).
  - reflexivity.
  - cbn. lia.
  - cbn. lia.
  - cbn. lia.
  - reflexivity.
Defined.

Lemma fit_with_afterburner_corrects_witness :
  _afterburner
    (self_ (snd (fit [5] (Some [0.01]) (Some [1.5]) true
                   (world3 (Some [0; 2]%nat))))) = true.
Proof.
  apply (fit_with_afterburner_corrects [5] [0.01] [1.5]
           (fun _ => 0.01) (fun _ => 1.5) (world3 (Some [0; 2]%nat))).
  - vm_compute. reflexivity.
  - cbn. discriminate.
  - reflexivity.
  - reflexivity.
Defined.

Lemma fit_stops_between_the_corrections_witness :
  fst (fit [5] (Some [0.01]) (Some [1.5; 2]) true (world3 (Some [0; 2]%nat)))
  = Raise (ValueError "spline: one node and one value expected").
Proof.
  apply (fit_stops_between_the_corrections [5] [0.01] [1.5; 2]
           (fun _ => 0.01)
           (ValueError "spline: one node and one value expected")
           (world3 (Some [0; 2]%nat))).
  - vm_compute. reflexivity.
  - cbn. discriminate.
  - reflexivity.
  - reflexivity.
Defined.

Lemma fit_assigns_only_corrected_state_witness :
  _afterburner
    (self_ (snd (fit [5] (Some [0.01]) (Some [1.5]) true
                   (world3 (Some [0; 2]%nat))))) = true.
Proof.
  apply (proj2 (fit_assigns_only_corrected_state [5] (Some [0.01])
                  (Some [1.5]) true (world3 (Some [0; 2]%nat))) [5]).
  vm_compute. reflexivity.
Defined.

Lemma fit_without_afterburner_twice_witness :
  fit [5] (Some [0.01]) None false
    (snd (fit [5] None (Some [1.5]) false (world3 None))) =
  fit [5] None (Some [1.5]) false (world3 None).
Proof.
  apply (fit_without_afterburner_twice [5] None (Some [1.5]) (Some [0.01])
           None (world3 None)).
  vm_compute. reflexivity.
Defined.

Lemma cost_depends_on_clipped_thresholds_witness :
  call [50] (world3 None) = call [30] (world3 None).
Proof.
  apply (cost_depends_on_clipped_thresholds (world3 None) [50] [30]
           (fun _ => 50) (fun _ => 30)).
  - vm_compute. reflexivity.
  - reflexivity.
  - reflexivity.
  - intros i Hi. destruct i as [|[|[|i]]]; vm_compute; reflexivity.
Defined.

Lemma scalar_zmax_is_constant_zmax_witness :
  fst (call [5] (mkWorld (set_zmax (repeat 0.5 3) (self3 None)) generator0)) =
  fst (call [5] (mkWorld (self3 None) generator0)).
Proof.
  apply (scalar_zmax_is_constant_zmax (self3 None) 0.5 [5] generator0).
  - vm_compute. reflexivity.
  - reflexivity.
Defined.

Lemma cost_rejects_other_number_of_bins_witness :
  call [5] (mkWorld (self3_with [0.5] [10000; 20000]) generator0) =
  (Raise (ValueError "operands could not be broadcast together"),
   mkWorld (self3_with [0.5] [10000; 20000]) generator0).
Proof.
  apply (cost_rejects_other_number_of_bins
           (mkWorld (self3_with [0.5] [10000; 20000]) generator0) [5]
           (fun _ => 5) [1; 1; 0]%Z).
  - vm_compute. reflexivity.
  - reflexivity.
  - vm_compute. discriminate.
  - vm_compute. reflexivity.
  - cbn. lia.
  - cbn. lia.
  - cbn. lia.
Defined.


Lemma fit_bias_eratio_index_out_of_range_witness :
  fit_bias_eratio [5] [0] [1] (world3 (Some [0; 7]%nat)) =
  (Raise IndexError, world3 (Some [0; 7]%nat)).
Proof.
  apply (fit_bias_eratio_index_out_of_range [5] [0] [1] (fun _ => 5)
           [0; 7]%nat 7%nat (world3 (Some [0; 7]%nat))).
  - vm_compute. reflexivity.
  - reflexivity.
  - cbn. tauto.
  - cbn. lia.
  - reflexivity.
Defined.

Lemma starting_values_are_chisq_in_window_witness :
  Np.size [1; 4; 2] = Np.size nodes3.
Proof.
  apply (starting_values_are_chisq_in_window gals5 [0; 1; 2; 3; 4]%nat
           nodes3 test_vol3 0.05 0 [1; 4; 2]).
  vm_compute. reflexivity.
Defined.

Lemma starting_values_too_few_in_window_witness :
  starting_values gals5 [0; 1; 2; 3; 4]%nat nodes3 test_vol3 0.05 1 =
  Raise IndexError.
Proof.
  apply (starting_values_too_few_in_window gals5 [0; 1; 2; 3; 4]%nat nodes3
           test_vol3 0.05 1 1%nat (0.2 - 0.05 / 2, 0.2 + 0.05 / 2)
           [2%nat] 1000).
  - cbn. lia.
  - reflexivity.
  - vm_compute. reflexivity.
  - reflexivity.
  - intros k Hk. cbn in Hk.
    destruct k as [|k]; [vm_compute; reflexivity | lia].
Defined.

Lemma afterburner_use_has_calibration_redshifts_witness :
  exists use,
    afterburner_use zcal6 red_poss5 2 [0.5; 0.1; 0.9; 0.3] = Ok use /\
    NoDup use /\
    (forall k, In k use ->
       (k < Np.size red_poss5)%nat /\
       (0 <? nth k [0.2; -1; 0.3; 0.4; 0.5] nan) = true) /\
    ((0 <= 2)%Z ->
     Np.size use =
     Nat.min (Z.to_nat 2)
       (Np.size (Np.np_where
                   (map (fun x => 0 <? x) [0.2; -1; 0.3; 0.4; 0.5])))).
Proof.
  apply (afterburner_use_has_calibration_redshifts zcal6 red_poss5 2
           [0.5; 0.1; 0.9; 0.3] [0.2; -1; 0.3; 0.4; 0.5]).
  - reflexivity.
  - vm_compute. reflexivity.
Defined.

Lemma areas_at_beyond_table_witness :
  areas_at [0.1; 0.2; 0.3] [10; 20; 30] [0.15; 0.35] = Raise IndexError.
Proof.
  apply (areas_at_beyond_table [0.1; 0.2; 0.3] [10; 20; 30] [0.15; 0.35] 0.35).
  - reflexivity.
  - cbn. tauto.
  - intros p Hp. cbn in Hp.
    destruct p as [|[|[|p]]]; try (vm_compute; reflexivity). lia.
Defined.

Lemma fit_selection_returns_witness :
  fit_selection [5] 1 false (world3 None) =
  (match minimize (fmin [5]) (cost (reset_to_raw (self_ (world3 None)))) with
   | Ok c => Ok (c, (repeat 0 1, repeat 1 1))
   | Raise e => Raise e
   end,
   mkWorld (reset_to_raw (self_ (world3 None))) (np_random (world3 None))).
Proof.
  apply (proj1 (fit_selection_returns [5] 1 (world3 None))).
  vm_compute. reflexivity.
Defined.

End MoreRuns.

(** A run that draws from the generator. *)
Module RandomRuns.

Import Demo.

Lemma cost_function_deterministic_witness :
  let w1 := snd (draw_randomn true 3 (world3 None)) in
  let construct :=
    construct_fitter [0.25] [0.25]
      [0.15; 0.25; 0.35] [0.01; 0.01; 0.01]
      [1; 2; 30] [20; 20; 20]
      [0.15; -1; 0.36] [0.001; -1; 0.001]
      [18; 19; 19.5] [0; 1; 2] [0.5]
      1 1 [10000; 20000; 30000] [0.1; 0.4] 0.1 (fun _ => 20) 20
      [0; 2]%nat in
  let w2 := snd (construct w1) in
  let w3 := snd (fit_selection [5] 1 true w2) in
  fst (draw_randomn true 3 (world3 None)) = Ok [0; 1; 2] /\
  (true = false -> w1 = world3 None) /\
  _randomn (self_ w2) = [0; 1; 2] /\
  np_random w2 = np_random w1 /\
  (forall pars w',
     snd (call pars w') = w' /\
     fst (call pars (snd (call pars w'))) = fst (call pars w')) /\
  (forall pars s g g',
     fst (call pars (mkWorld s g)) = fst (call pars (mkWorld s g'))) /\
  (forall m w', snd (run_minimizer m call w') = w') /\
  np_random w3 = np_random w1 /\
  _randomn (self_ w3) = [0; 1; 2].
Proof.
  apply (cost_function_deterministic true [0.25] [0.25]
           [0.15; 0.25; 0.35] [0.01; 0.01; 0.01]
           [1; 2; 30] [20; 20; 20]
           [0.15; -1; 0.36] [0.001; -1; 0.001]
           [18; 19; 19.5] [0.5]
           1 1 [10000; 20000; 30000] [0.1; 0.4] 0.1 (fun _ => 20) 20
           [0; 2]%nat [5] true (world3 None)).
  vm_compute. reflexivity.
Defined.

(** The generator of the run above has advanced by the three draws and
    by nothing else, and the second evaluation of the cost repeats the
    first. *)
Lemma random_run_trace :
  let w1 := snd (draw_randomn true 3 (world3 None)) in
  let w2 :=
    snd (construct_fitter [0.25] [0.25]
           [0.15; 0.25; 0.35] [0.01; 0.01; 0.01]
           [1; 2; 30] [20; 20; 20]
           [0.15; -1; 0.36] [0.001; -1; 0.001]
           [18; 19; 19.5] [0; 1; 2] [0.5]
           1 1 [10000; 20000; 30000] [0.1; 0.4] 0.1 (fun _ => 20) 20
           [0; 2]%nat w1) in
  np_random (world3 None) = 0%nat /\
  np_random (snd (fit_selection [5] 1 true w2)) = 3%nat /\
  fst (call [5] (snd (call [5] w2))) = fst (call [5] w2).
Proof. repeat split; vm_compute; reflexivity. Qed.

End RandomRuns.
